(** * mc-printer: palette resolution, colour matching, image sampling,
      mesh rasterisation and the build scheduler

    A shallow embedding of the printing pipeline of the repository:
    - [mc-colors.js], the last part of [src/index.js]
      ([parsePaletteString], [getBlockFromColor]),
    - [index.js], in its current version, the middle part of
      [src/index.js] ([getBlock], [buildImage], [buildGif], the print
      state, [resolvePaletteArgument] and the [stop] command),
    - [model-builder.js] ([parseModelData], [buildLine], [buildTriangle],
      [buildQuad], [buildModel]).

    Conventions.
    - JavaScript numbers are modelled by exact numbers: integers by [Z],
      the others by [Q]; rounding of doubles is outside the model.
    - [undefined] is [None].
    - Strings are sequences of one-byte code units.
    - A JSON object used as a dictionary is a [gmap] over its own keys.
    - Host functions whose source is not part of the modelled files
      (the two colour-distance modules, [Math.hypot], [parseFloat]) are
      fields of the class [Host]; the theorems hold for every host.
    - The loops of a build take fuel, one unit a turn; the theorems say
      how much is enough. *)

From Stdlib Require Import ZArith QArith Qround Qminmax Lia Bool Ascii String List.
From stdpp Require Import base option list strings gmap pretty.

Local Open Scope string_scope.
Local Open Scope Z_scope.
Local Open Scope list_scope.

(** ** JavaScript string helpers *)

Module Js.

(** [s.split(sep)] for a one-character separator: never empty, the empty
    string gives one empty piece. *)
Fixpoint split (sep : ascii) (s : string) : list string :=
  match s with
  | EmptyString => [EmptyString]
  | String c rest =>
      if Ascii.eqb c sep then EmptyString :: split sep rest
      else match split sep rest with
           | [] => [String c EmptyString]
           | w :: ws => String c w :: ws
           end
  end.

(** The character does not occur in the string. *)
Fixpoint lacks (sep : ascii) (s : string) : bool :=
  match s with
  | EmptyString => true
  | String c rest => negb (Ascii.eqb c sep) && lacks sep rest
  end.

End Js.

(** ** Data model *)

(** A channel value read from an image or a palette; [None] is
    [undefined]. *)
Definition Chan := option Z.
Definition RGB : Type := Chan * Chan * Chan.

(** [[r, g, b, alpha]] *)
Record Sample := mkSample { sR : Chan; sG : Chan; sB : Chan; sAlpha : Chan }.

(** An entry of [palettes.json]. *)
Record Swatch := mkSwatch { block : string; average : RGB; dominant : RGB }.

(** [settings.color] *)
Inductive ColorKey := Average | Dominant.

(** [settings.mode] and the [mode] argument, compared to ['LAB']. *)
Inductive Metric := MRGB | MLAB.

Record Settings := mkSettings {
  color : ColorKey;
  mode : Metric;
  chunkSize : Z;
  commands : bool
}.

(** [swatch[settings.color]] *)
Definition swatchColor (k : ColorKey) (s : Swatch) : RGB :=
  match k with Average => average s | Dominant => dominant s end.

(** The palette argument of [getBlockFromColor]: a key such as
    ["concrete+terracotta"], or an array of swatches. *)
Inductive PaletteArg :=
| PaletteKey (key : string)
| PaletteList (swatches : list Swatch).

(** The functions the modelled files call but do not define. *)
Class Host := {
  (** [colourDistances.rgb(r1, g1, b1, r2, g2, b2)] *)
  colourDistances_rgb : Chan -> Chan -> Chan -> Chan -> Chan -> Chan -> Q;
  (** [antiColor.rgb2lab] and [antiColor.deltaE] *)
  LabColor : Type;
  antiColor_rgb2lab : RGB -> LabColor;
  antiColor_deltaE : LabColor -> LabColor -> Q;
  (** [Math.hypot(dx, dy, dz)] *)
  Math_hypot : Q -> Q -> Q -> Q;
  (** [parseFloat]; [None] is [NaN] *)
  parseFloat : string -> option Q
}.

(** [a < b] on numbers *)
Definition Qltb (a b : Q) : bool := negb (Qle_bool b a).

(** ** Palette resolver and colour matcher ([mc-colors.js]) *)

(** The swatches a name stands for: none when the name is not defined. *)
Definition swatchesOf (palettes : gmap string (list Swatch)) (name : string)
    : list Swatch :=
  default [] (palettes !! name).

Section ColourMatcher.
Context `{Host}.
Variable palettes : gmap string (list Swatch).

(** [parsePaletteString] for a key whose names are keys of the table or
    are not found at all.  A name that is no key of the table but a
    property every object inherits (["constructor"], ["toString"], ...)
    is found by [palettes[name]] as well and makes the function throw:
    that lookup is [Proto.member], and the function with it
    [Proto.parsePaletteString]. *)
Definition parsePaletteString (paletteString : string) : list Swatch :=
  foldl (fun palette paletteName =>
           match palettes !! paletteName with
           | Some swatches => (palette ++ swatches)%list
           | None => palette
           end)
        [] (Js.split "+" paletteString).

Definition colorDistanceRGB (c1 c2 : RGB) : Q :=
  let '(r1, g1, b1) := c1 in
  let '(r2, g2, b2) := c2 in
  colourDistances_rgb r1 g1 b1 r2 g2 b2.

Definition colorDistanceLAB (c1 c2 : RGB) : Q :=
  antiColor_deltaE (antiColor_rgb2lab c1) (antiColor_rgb2lab c2).

(** [mode.toUpperCase() === 'LAB' || settings.mode === 'LAB'] *)
Definition useLab (settings : Settings) (modeArg : Metric) : bool :=
  match modeArg, mode settings with
  | MLAB, _ | _, MLAB => true
  | _, _ => false
  end.

(** The distance the scan compares, for the active metric and colour
    key. *)
Definition distanceTo (settings : Settings) (modeArg : Metric)
    (c : RGB) (s : Swatch) : Q :=
  if useLab settings modeArg
  then colorDistanceLAB c (swatchColor (color settings) s)
  else colorDistanceRGB c (swatchColor (color settings) s).

(** One turn of the loop body: [best = dA < dB ? best : swatch]. *)
Definition scanStep (settings : Settings) (modeArg : Metric) (c : RGB)
    (best swatch : Swatch) : Swatch :=
  if useLab settings modeArg then
    let disA := colorDistanceLAB c (swatchColor (color settings) best) in
    let disB := colorDistanceLAB c (swatchColor (color settings) swatch) in
    if Qltb disA disB then best else swatch
  else
    let distanceA := colorDistanceRGB c (swatchColor (color settings) best) in
    let distanceB := colorDistanceRGB c (swatchColor (color settings) swatch) in
    if Qltb distanceA distanceB then best else swatch.

(** [best] is at index [j] of [l], no swatch of [l] is nearer to [c], and
    every swatch after [j] is strictly farther. *)
Definition lastNearest (settings : Settings) (modeArg : Metric) (c : RGB)
    (l : list Swatch) (best : Swatch) (j : nat) : Prop :=
  l !! j = Some best
  ∧ ∀ (i : nat) s, l !! i = Some s →
      (distanceTo settings modeArg c best <= distanceTo settings modeArg c s)%Q
      ∧ ((j < i)%nat →
         (distanceTo settings modeArg c best < distanceTo settings modeArg c s)%Q).

(** [for (const swatch of palette.slice(1))] *)
Definition scan (settings : Settings) (modeArg : Metric) (c : RGB)
    (first : Swatch) (others : list Swatch) : Swatch :=
  foldl (scanStep settings modeArg c) first others.

(** [getBlockFromColor]; with a string key it is, like
    [parsePaletteString], for keys none of whose names is found on
    [Object.prototype] only: [Proto.getBlockFromColor] has the
    [TypeError] of those. *)
Definition getBlockFromColor (settings : Settings) (sample : Sample)
    (palette : PaletteArg) (modeArg : Metric) : string :=
  let palette :=
    match palette with
    | PaletteKey key => parsePaletteString key
    | PaletteList l => l
    end in
  match palette with
  | [] => "air"
  | first :: others =>
      match sAlpha sample with
      | Some 0 => "air"
      | _ => block (scan settings modeArg (sR sample, sG sample, sB sample)
                         first others)
      end
  end.

(** [bot.colors.getBlock(color, palette = 'zero-gravity', mode = 'rgb')] *)
Definition colors_getBlock (settings : Settings) (sample : Sample)
    (palette : option PaletteArg) : string :=
  getBlockFromColor settings sample
    (default (PaletteKey "zero-gravity") palette) MRGB.

End ColourMatcher.

(** ** Property lookup on the palette table *)

(** [palettes] is the object [JSON.parse] returns: [palettes[name]] finds
    the keys of the file and, for a name that is no key, the properties
    every object inherits from [Object.prototype]. *)
Module Proto.

(** The property names of [Object.prototype]. *)
Definition members : list string :=
  ["constructor"; "__defineGetter__"; "__defineSetter__"; "hasOwnProperty";
   "__lookupGetter__"; "__lookupSetter__"; "isPrototypeOf";
   "propertyIsEnumerable"; "toString"; "valueOf"; "__proto__";
   "toLocaleString"].

Definition inherited (name : string) : bool :=
  existsb (String.eqb name) members.

(** What [palettes[name]] is: the array of a key of the table; an
    inherited function or object, truthy and not iterable; or
    [undefined]. *)
Inductive Member :=
| Own (swatches : list Swatch)
| Inherited
| Absent.

Definition member (palettes : gmap string (list Swatch)) (name : string)
    : Member :=
  match palettes !! name with
  | Some swatches => Own swatches
  | None => if inherited name then Inherited else Absent
  end.

(** [!palettes[name]] *)
Definition isAbsent (m : Member) : bool :=
  match m with
  | Absent => true
  | _ => false
  end.

(** [...palettes[name]] throws: the value is truthy and not iterable. *)
Definition notIterable (m : Member) : bool :=
  match m with
  | Inherited => true
  | _ => false
  end.

(** A value, or the [TypeError] of spreading what is not iterable. *)
Inductive Attempt (A : Type) :=
| Gives (a : A)
| TypeError.
Arguments Gives {A}.
Arguments TypeError {A}.

(** The loop of [parsePaletteString]:
    [if (palettes[name]) palette.push(...palettes[name])]. *)
Fixpoint pushAll (palettes : gmap string (list Swatch))
    (names : list string) (palette : list Swatch) : Attempt (list Swatch) :=
  match names with
  | [] => Gives palette
  | paletteName :: names =>
      match member palettes paletteName with
      | Own swatches => pushAll palettes names (palette ++ swatches)
      | Inherited => TypeError
      | Absent => pushAll palettes names palette
      end
  end.

Definition parsePaletteString (palettes : gmap string (list Swatch))
    (paletteString : string) : Attempt (list Swatch) :=
  pushAll palettes (Js.split "+" paletteString) [].

(** [getBlockFromColor]: a string is resolved first, and what follows
    is the matcher on the list of swatches. *)
Definition getBlockFromColor `{Host} (palettes : gmap string (list Swatch))
    (settings : Settings) (sample : Sample) (palette : PaletteArg)
    (modeArg : Metric) : Attempt string :=
  match palette with
  | PaletteKey key =>
      match parsePaletteString palettes key with
      | Gives swatches =>
          Gives (getBlockFromColor palettes settings sample
                   (PaletteList swatches) modeArg)
      | TypeError => TypeError
      end
  | PaletteList swatches =>
      Gives (getBlockFromColor palettes settings sample
               (PaletteList swatches) modeArg)
  end.

End Proto.

(** ** Image sampler ([getBlock] of [index.js]) *)

(** An [ndarray] view over a byte buffer, as [get-pixels] returns it. *)
Record NdArray := mkNdArray {
  data : list Z;
  shape : list Z;
  stride : list Z;
  offset : Z
}.

(** [image.get(i, j, ...)]: the element at [offset + sum stride_d * i_d];
    arguments beyond the dimension are ignored, a missing or [NaN]
    argument and an index outside the buffer give [undefined]. *)
Fixpoint nd_index (strides : list Z) (idx : list (option Z)) : option Z :=
  match strides, idx with
  | [], _ => Some 0
  | _ :: _, [] => None
  | s :: strides, i :: idx =>
      match i, nd_index strides idx with
      | Some i, Some rest => Some (s * i + rest)
      | _, _ => None
      end
  end.

Definition nd_get (image : NdArray) (idx : list (option Z)) : Chan :=
  match nd_index (stride image) idx with
  | Some i =>
      let p := offset image + i in
      if p <? 0 then None else data image !! Z.to_nat p
  | None => None
  end.

(** [Math.floor(image.shape[d] * x)]; [None] when the axis is missing. *)
Definition pixelIndex (image : NdArray) (d : nat) (x : Q) : option Z :=
  (fun n => Qfloor (inject_Z n * x)%Q) <$> shape image !! d.

(** [a ?? b] *)
Definition nullish {A} (a b : option A) : option A :=
  match a with Some v => Some v | None => b end.

Section Sampler.
Context `{Host}.
Variable palettes : gmap string (list Swatch).
Variable settings : Settings.

(** The colour [getBlock] hands to the matcher. *)
Definition getBlockSample (image : NdArray) (x z : Q) (gif : bool) (t : Z)
    : Sample :=
  if negb gif then
    let px := pixelIndex image 0 x in
    let pz := pixelIndex image 1 z in
    let r := nd_get image [px; pz; Some 0] in
    let g := nd_get image [px; pz; Some 1] in
    let b := nd_get image [px; pz; Some 2] in
    let alpha := nullish (nd_get image [px; pz; Some 3])
                         (nd_get image [px; pz; Some 2]) in
    mkSample r g b alpha
  else
    let px := pixelIndex image 1 x in
    let pz := pixelIndex image 2 z in
    let r := nd_get image [Some t; px; pz; Some 0] in
    let g := nd_get image [Some t; px; pz; Some 1] in
    let b := nd_get image [Some t; px; pz; Some 2] in
    let alpha := nullish (nd_get image [Some t; px; pz; Some 3]) (Some 255) in
    mkSample r g b alpha.

(** [getBlock(image, x, z, palette = palettes.concrete, gif = false, t = 1)];
    an omitted [palette] is [None]. *)
Definition getBlock (image : NdArray) (x z : Q) (palette : option PaletteArg)
    (gif : bool) (t : Z) : string :=
  let palette :=
    match palette with
    | Some p => Some p
    | None => PaletteList <$> palettes !! "concrete"
    end in
  colors_getBlock palettes settings (getBlockSample image x z gif t) palette.

End Sampler.

(** ** Print state ([index.js]) *)

Record Metadata := mkMetadata { mFrame : option Z; mFrameCount : option Z }.

(** [printData]; [bar] is the number of filled segments of the bar. *)
Record PrintData := mkPrintData {
  isPrinting : bool;
  progress : Q;
  bar : Z;
  currentTask : option string;
  cancelRequested : bool;
  placedBlocks : Z;
  totalBlocks : Z;
  metadata : option Metadata
}.

Definition PROGRESS_SEGMENTS : Z := 20.

(** [Math.round] *)
Definition Qround (x : Q) : Z := Qfloor (x + (1 # 2))%Q.

(** The number of filled segments [createBar] draws. *)
Definition createBar (progressSegments : Q) : Z :=
  Z.max 0 (Z.min PROGRESS_SEGMENTS (Qround progressSegments)).

Definition updateProgressBar (p : Q) (pd : PrintData) : PrintData :=
  let clamped := Qmax 0 (Qmin 1 p) in
  {| isPrinting := isPrinting pd;
     progress := clamped;
     bar := createBar (clamped * inject_Z PROGRESS_SEGMENTS)%Q;
     currentTask := currentTask pd;
     cancelRequested := cancelRequested pd;
     placedBlocks := placedBlocks pd;
     totalBlocks := totalBlocks pd;
     metadata := metadata pd |}.

Definition updatePrintProgress (completed total : Z) (pd : PrintData)
    : PrintData :=
  let pd1 :=
    {| isPrinting := isPrinting pd;
       progress := progress pd;
       bar := bar pd;
       currentTask := currentTask pd;
       cancelRequested := cancelRequested pd;
       placedBlocks := completed;
       totalBlocks := total;
       metadata := metadata pd |} in
  let p := if 0 <? total then (inject_Z completed / inject_Z total)%Q else 0%Q in
  updateProgressBar p pd1.

Definition startPrintTask (name : string) (total : Z) (meta : Metadata)
    (pd : PrintData) : PrintData :=
  updatePrintProgress 0 total
    {| isPrinting := true;
       progress := progress pd;
       bar := bar pd;
       currentTask := Some name;
       cancelRequested := false;
       placedBlocks := placedBlocks pd;
       totalBlocks := totalBlocks pd;
       metadata := Some meta |}.

Definition finishPrintTask (cancelled : bool) (pd : PrintData) : PrintData :=
  let pd1 :=
    if negb cancelled && (0 <? totalBlocks pd)
    then updatePrintProgress (totalBlocks pd) (totalBlocks pd) pd
    else updateProgressBar 0 pd in
  {| isPrinting := false;
     progress := progress pd1;
     bar := bar pd1;
     currentTask := None;
     cancelRequested := false;
     placedBlocks := 0;
     totalBlocks := 0;
     metadata := None |}.

(** The handler of the [stop] command. *)
Definition stopCommand (pd : PrintData) : PrintData :=
  if negb (isPrinting pd) then pd
  else if cancelRequested pd then pd
  else
    {| isPrinting := isPrinting pd;
       progress := progress pd;
       bar := bar pd;
       currentTask := currentTask pd;
       cancelRequested := true;
       placedBlocks := placedBlocks pd;
       totalBlocks := totalBlocks pd;
       metadata := metadata pd |}.

(** [pushTask(name)] and the [removeTask] closure it returns, on
    [bot.task]. *)
Definition pushTask (taskName : string) (tasks : list string) : list string :=
  (tasks ++ [taskName])%list.

Fixpoint removeFirst (taskName : string) (l : list string) : list string :=
  match l with
  | [] => []
  | t :: l' => if String.eqb t taskName then l' else t :: removeFirst taskName l'
  end.

(** [splice(lastIndexOf(name), 1)] *)
Definition removeTask (taskName : string) (tasks : list string) : list string :=
  rev (removeFirst taskName (rev tasks)).

(** ** Build scheduler ([buildImage], [buildGif] of [index.js]) *)

(** [vec3] *)
Record Vec3 := mkVec3 { vx : Q; vy : Q; vz : Q }.

Definition Pos : Type := Z * Z * Z.

Definition vec_offset (v : Vec3) (dx dy dz : Q) : Vec3 :=
  mkVec3 (vx v + dx)%Q (vy v + dy)%Q (vz v + dz)%Q.

Definition vec_floor (v : Vec3) : Pos :=
  (Qfloor (vx v), Qfloor (vy v), Qfloor (vz v)).

(** What the scheduler asks of the bot for one cell. *)
Inductive Op :=
| Setblock (p : Pos) (b : string)   (** [bot.chat('/setblock ...')] *)
| PlaceBlock (p : Pos) (b : string) (** [actions.placeBlock] *)
| ClearBlock (p : Pos).             (** [actions.clearBlock] *)

(** The observable history of a build: the operation issued for a grid
    cell [(k, z)], a [waitForTicks(1)], and a [stop] typed by the user
    while the build is suspended. *)
Inductive Event :=
| EvOp (cell : Z * Z) (op : Op)
| EvTick
| EvStop.

(** What the outside does during the [n]-th call into the bot: whether
    the user types [stop] while the call is pending, and whether the call
    throws or rejects. *)
Record Reaction := mkReaction { stopTyped : bool; rejects : bool }.
Definition Env := nat -> Reaction.

Record World := mkWorld {
  printData : PrintData;
  botTask : list string;
  clock : nat;
  trace : list Event
}.

(** The result of running a piece of the build: finished with a value,
    stopped by an exception, or out of fuel. *)
Inductive Res (A : Type) :=
| Done (a : A) (w : World)
| Raised (w : World)
| Starved.
Arguments Done {A} a w.
Arguments Raised {A} w.
Arguments Starved {A}.

Definition bind {A B} (r : Res A) (k : A -> World -> Res B) : Res B :=
  match r with
  | Done a w => k a w
  | Raised w => Raised w
  | Starved => Starved
  end.

Notation "r >>= k" := (bind r k) (at level 50, left associativity).

Definition withPrintData (f : PrintData -> PrintData) (w : World) : World :=
  mkWorld (f (printData w)) (botTask w) (clock w) (trace w).

Definition logEvent (e : Event) (w : World) : World :=
  mkWorld (printData w) (botTask w) (clock w) (trace w ++ [e]).

Definition tick (w : World) : World :=
  mkWorld (printData w) (botTask w) (S (clock w)) (trace w).

(** [await f(...)]: the call is issued, the build is suspended, the user
    may type [stop], then the call resolves or rejects. *)
Definition await (env : Env) (e : Event) (w : World) : Res unit :=
  let r := env (clock w) in
  let w1 := tick (logEvent e w) in
  let w2 := if stopTyped r
            then withPrintData stopCommand (logEvent EvStop w1)
            else w1 in
  if rejects r then Raised w2 else Done tt w2.

(** A call that is not awaited: no command runs in between. *)
Definition call (env : Env) (e : Event) (w : World) : Res unit :=
  let r := env (clock w) in
  let w1 := tick (logEvent e w) in
  if rejects r then Raised w1 else Done tt w1.

(** [options] of [buildImage] and [buildGif]. *)
Record BuildOptions := mkBuildOptions {
  applyDefaultOffset : option bool;
  optFrame : option Z;
  optFrameCount : option Z
}.

(** [a || b] on numbers that may be missing *)
Definition orElse (a : option Z) (b : option Z) : option Z :=
  match a with
  | Some n => if n =? 0 then b else Some n
  | None => b
  end.

Inductive Outcome :=
| Returned (cancelled : bool)
| Threw.

Section Scheduler.
Context `{Host}.
Variable palettes : gmap string (list Swatch).
Variable settings : Settings.
Variable env : Env.
Variable texture : NdArray.
Variable palette : PaletteArg.
Variable targetStart : Vec3.
(** [size[0]], [size[1]] *)
Variables width height : Z.
(** [buildGif] samples frame [frame]; [buildImage] the still image. *)
Variable gif : bool.
Variable frame : Z.

Definition totalBlocksOf : Z := width * height.

(** The body of the innermost loop, after the cancellation check. *)
Definition processCell (x z xx : Z) (w : World) : Res unit :=
  let k := x + xx in
  let block := getBlock palettes settings texture
                 (inject_Z k / inject_Z width)%Q
                 (inject_Z z / inject_Z height)%Q
                 (Some palette) gif frame in
  let position := vec_floor (vec_offset targetStart (inject_Z k) 0 (inject_Z z)) in
  (if commands settings
   then call env (EvOp (k, z) (Setblock position block)) w
   else if negb (String.eqb block "")
        then await env (EvOp (k, z) (PlaceBlock position block)) w
        else await env (EvOp (k, z) (ClearBlock position)) w)
  >>= fun _ w =>
  Done tt (withPrintData
             (fun pd => updatePrintProgress (placedBlocks pd + 1) totalBlocksOf pd)
             w).

(** [for (let xx = 0; xx < chunkSize && x + xx < size[0]; xx++)];
    the value is [cancelled]. *)
Fixpoint chunkRow (fuel : nat) (x z xx : Z) (w : World) : Res bool :=
  match fuel with
  | O => Starved
  | S fuel =>
      if (xx <? chunkSize settings) && (x + xx <? width) then
        if cancelRequested (printData w) then Done true w
        else processCell x z xx w >>= fun _ w => chunkRow fuel x z (xx + 1) w
      else Done false w
  end.

(** [while (z >= 0 && z < size[1] && !cancelled)]; the value is
    [cancelled] and the last [z]. *)
Fixpoint sweep (fuel : nat) (x z zDirection : Z) (w : World)
    : Res (bool * Z) :=
  match fuel with
  | O => Starved
  | S fuel =>
      if (0 <=? z) && (z <? height) then
        chunkRow fuel x z 0 w >>= fun cancelled w =>
        if cancelled : bool then Done (true, z) w
        else await env EvTick w >>= fun _ w =>
             sweep fuel x (z + zDirection) zDirection w
      else Done (false, z) w
  end.

(** [for (let x = 0; x < size[0] && !cancelled; x += chunkSize)] *)
Fixpoint chunks (fuel : nat) (x z zDirection : Z) (w : World) : Res bool :=
  match fuel with
  | O => Starved
  | S fuel =>
      if x <? width then
        sweep fuel x z zDirection w >>= fun r w =>
        let '(cancelled, z) := r in
        let zDirection := - zDirection in
        let z := z + zDirection in
        if cancelled : bool then Done true w
        else chunks fuel (x + chunkSize settings) z zDirection w
      else Done false w
  end.

(** The [try] block. *)
Definition buildBody (fuel : nat) (w : World) : Res bool :=
  chunks fuel 0 0 1 w.

(** [pushTask] and [startPrintTask], before the [try] block. *)
Definition buildStart (taskName label : string) (meta : Metadata) (w : World)
    : World :=
  mkWorld (startPrintTask label totalBlocksOf meta (printData w))
          (pushTask taskName (botTask w)) (clock w) (trace w).

(** The [finally] block. *)
Definition buildFinally (taskName : string) (cancelled : bool) (w : World)
    : World :=
  mkWorld (finishPrintTask cancelled (printData w))
          (removeTask taskName (botTask w)) (clock w) (trace w).

(** The common shape of [buildImage] and [buildGif]: [ensureBotSpawned],
    [pushTask], [startPrintTask], the [try] block and the [finally]
    block.  [None] when the fuel does not suffice. *)
Definition runBuild (taskName label : string) (meta : Metadata)
    (fuel : nat) (botSpawned : bool) (w : World) : option (Outcome * World) :=
  if negb botSpawned then Some (Threw, w)
  else
    match buildBody fuel (buildStart taskName label meta w) with
    | Done cancelled w => Some (Returned cancelled, buildFinally taskName cancelled w)
    | Raised w => Some (Threw, buildFinally taskName false w)
    | Starved => None
    end.

End Scheduler.

(** [targetStart]: the start position, moved by [(1, 0, 1)] unless
    [options.applyDefaultOffset === false]. *)
Definition targetStartOf (startPosition : Vec3) (options : BuildOptions) : Vec3 :=
  match applyDefaultOffset options with
  | Some false => startPosition
  | _ => vec_offset startPosition 1 0 1
  end.

Section Builds.
Context `{Host}.
Variable palettes : gmap string (list Swatch).
Variable settings : Settings.
Variable env : Env.

(** The [try] block of [buildImage], from the state [startPrintTask]
    leaves. *)
Definition buildImageTry (fuel : nat) (texture : NdArray)
    (palette : PaletteArg) (startPosition : Vec3) (size : Z * Z)
    (options : BuildOptions) (w : World) : Res bool :=
  buildBody palettes settings env texture palette
    (targetStartOf startPosition options) (fst size) (snd size) false 1 fuel
    (buildStart (fst size) (snd size) "draw" "Image build"
       (mkMetadata None None) w).

(** [metadata] of a GIF frame. *)
Definition gifMetadata (texture : NdArray) (frame : Z) (options : BuildOptions)
    : Metadata :=
  mkMetadata
    (orElse (optFrame options) (Some (frame + 1)))
    (orElse (orElse (optFrameCount options) (shape texture !! 0%nat)) (Some 1)).


Definition buildImage (fuel : nat) (botSpawned : bool) (texture : NdArray)
    (palette : PaletteArg) (startPosition : Vec3) (size : Z * Z)
    (options : BuildOptions) (w : World) : option (Outcome * World) :=
  runBuild palettes settings env texture palette
    (targetStartOf startPosition options) (fst size) (snd size) false 1
    "draw" "Image build" (mkMetadata None None) fuel botSpawned w.

Definition buildGif (fuel : nat) (botSpawned : bool) (texture : NdArray)
    (palette : PaletteArg) (startPosition : Vec3) (size : Z * Z) (frame : Z)
    (options : BuildOptions) (w : World) : option (Outcome * World) :=
  runBuild palettes settings env texture palette
    (targetStartOf startPosition options) (fst size) (snd size) true frame
    "gif" ("GIF frame " +:+ pretty (frame + 1))
    (gifMetadata texture frame options) fuel botSpawned w.

End Builds.

(** ** Reading a build history *)




(** ** The order of the scan

    The cells the three nested loops visit when nothing interrupts
    them, written without worlds, fuel or the outside: a chunk is up to
    [c] columns wide; for each chunk, [z] sweeps over the rows one way,
    each row giving its columns in increasing [x]; the next chunk sweeps
    back from the row the last one ended on. *)

Section VisitOrder.
Variables width height c : Z.









End VisitOrder.

(** How far a loop got through the cells [spec] it had to visit: all of
    them when it was not cancelled, and not all of them when it was. *)
Definition Progress (cancelled : bool) (cells spec : list (Z * Z)) : Prop :=
  if cancelled
  then ∃ rest, spec = cells ++ rest ∧ rest ≠ []
  else cells = spec.




Definition placedAtEnd (r : Res bool) : option Z :=
  match r with
  | Done _ w | Raised w => Some (placedBlocks (printData w))
  | Starved => None
  end.

(** The print state as [finishPrintTask] leaves it. *)
Definition IsReset (pd : PrintData) : Prop :=
  isPrinting pd = false
  ∧ currentTask pd = None
  ∧ cancelRequested pd = false
  ∧ placedBlocks pd = 0
  ∧ totalBlocks pd = 0
  ∧ metadata pd = None.

(** ** Mesh rasteriser ([model-builder.js]) *)

(** A finite number, or [NaN] ([None]).  The infinities of JavaScript
    are outside this model: a coordinate such as [1e999] is not
    covered. *)
Definition Num := option Q.

Definition nlift2 (f : Q -> Q -> Q) (a b : Num) : Num :=
  match a, b with
  | Some x, Some y => Some (f x y)
  | _, _ => None
  end.

Definition nadd := nlift2 Qplus.
Definition nsub := nlift2 Qminus.
Definition nmul := nlift2 Qmult.
Definition ndiv := nlift2 Qdiv.
Definition nmax := nlift2 Qmax.

(** [a < b], false when either side is [NaN] *)
Definition nlt (a b : Num) : bool :=
  match a, b with
  | Some x, Some y => Qltb x y
  | _, _ => false
  end.

(** [Math.floor] *)
Definition nfloor (a : Num) : option Z := Qfloor <$> a.

Definition numZ (n : Z) : Num := Some (inject_Z n).

Record Point := mkPoint { px : Num; py : Num; pz : Num }.
Definition UV : Type := Num * Num.

(** The block position of a [/setblock]; a [NaN] coordinate is [None]. *)
Definition BlockPos : Type := option Z * option Z * option Z.

Inductive MeshEvent :=
| MSetblock (p : BlockPos) (b : string)  (** [bot.chat('/setblock ...')] *)
| MTick.                                 (** [bot.waitForTicks(1)] *)

(** The module variable [blocksPlaced] and what was sent to the bot. *)
Record Raster := mkRaster { blocksPlaced : Z; emitted : list MeshEvent }.

(** The parsed mesh. *)
Record Model := mkModel {
  msize : Z;
  vertices : list Point;
  faces : list (list (option Z));
  uvs : list (list (option Z));
  vts : list UV
}.

Module Parse.

(** The one-byte code units [trim] and [\s] treat as white space. *)
Definition isSpace (c : ascii) : bool :=
  let n := nat_of_ascii c in
  ((9 <=? n) && (n <=? 13) || (n =? 32) || (n =? 160))%nat.

Fixpoint trimStart (s : string) : string :=
  match s with
  | String c rest => if isSpace c then trimStart rest else s
  | EmptyString => EmptyString
  end.

Definition revString (s : string) : string :=
  string_of_list_ascii (rev (list_ascii_of_string s)).

(** [s.trim()] *)
Definition trim (s : string) : string :=
  revString (trimStart (revString (trimStart s))).

(** [s.split(/\s+/)] of a trimmed, non-empty string: the maximal runs of
    characters that are not white space.  [cur] is the run being read,
    reversed. *)
Fixpoint words (cur : list ascii) (s : string) : list string :=
  match s with
  | EmptyString =>
      match cur with
      | [] => []
      | _ => [string_of_list_ascii (rev cur)]
      end
  | String c rest =>
      if isSpace c then
        match cur with
        | [] => words [] rest
        | _ => string_of_list_ascii (rev cur) :: words [] rest
        end
      else words (c :: cur) rest
  end.

Definition isDigit (c : ascii) : bool :=
  let n := nat_of_ascii c in ((48 <=? n) && (n <=? 57))%nat.

(** The value of the longest prefix of decimal digits, and whether there
    was any digit. *)
Fixpoint digits (acc : Z) (seen : bool) (s : string) : Z * bool :=
  match s with
  | String c rest =>
      if isDigit c
      then digits (10 * acc + (Z.of_nat (nat_of_ascii c) - 48)) true rest
      else (acc, seen)
  | EmptyString => (acc, seen)
  end.

(** [parseInt(s, 10)]; [None] is [NaN].  The value is the integer the
    digits write, which is what JavaScript returns as long as a double
    holds it exactly, that is up to [2^53]; beyond, JavaScript rounds
    (and gives [Infinity] from about 309 digits), and the theorems that
    depend on the value bound the numbers they speak of. *)
Definition parseInt (s : string) : option Z :=
  let s := trimStart s in
  let '(sign, s) :=
    match s with
    | String "-" rest => (-1, rest)
    | String "+" rest => (1, rest)
    | _ => (1, s)
    end in
  let '(n, seen) := digits 0 false s in
  if seen : bool then Some (sign * n) else None.

End Parse.

Section Rasteriser.
Context `{Host}.
Variable palettes : gmap string (list Swatch).
Variable settings : Settings.

Definition distanceBetweenPoints (a b : Point) : Num :=
  match nsub (px a) (px b), nsub (py a) (py b), nsub (pz a) (pz b) with
  | Some dx, Some dy, Some dz => Some (Math_hypot dx dy dz)
  | _, _, _ => None
  end.

Definition lerp (a b t : Num) : Num :=
  nadd (nmul (nsub (numZ 1) t) a) (nmul t b).

Definition lerp2D (a b : UV) (t : Num) : UV :=
  (lerp (fst a) (fst b) t, lerp (snd a) (snd b) t).

Definition lerp3D (a b : Point) (t : Num) : Point :=
  mkPoint (lerp (px a) (px b) t) (lerp (py a) (py b) t) (lerp (pz a) (pz b) t).

(** [Math.min(n - 1, Math.max(0, Math.floor(c * n)))] for [n = shape[d]] *)
Definition texel (texture : NdArray) (d : nat) (c : Num) : option Z :=
  n ← shape texture !! d;
  f ← nfloor (nmul c (numZ n));
  Some (Z.min (n - 1) (Z.max 0 f)).

Definition getTextureColor (texture : NdArray) (uv : UV) : Sample :=
  let x := texel texture 0 (fst uv) in
  let y := texel texture 1 (nsub (numZ 1) (snd uv)) in
  let r := nd_get texture [x; y; Some 0] in
  let g := nd_get texture [x; y; Some 1] in
  let b := nd_get texture [x; y; Some 2] in
  let alpha :=
    match shape texture !! 2%nat with
    | Some c => if 3 <? c then nd_get texture [x; y; Some 3] else Some 255
    | None => Some 255
    end in
  mkSample r g b alpha.

Definition getBlockFromUV (texture : NdArray) (uv : UV) : string :=
  colors_getBlock palettes settings (getTextureColor texture uv) None.

(** [blocksPlaced % chunkSize === 0] *)
Definition atChunkStart (placed : Z) : bool :=
  if chunkSize settings =? 0 then false
  else Z.rem placed (chunkSize settings) =? 0.

Definition setBlock (position : BlockPos) (blockType : string) (st : Raster)
    : Raster :=
  if String.eqb blockType "air" || String.eqb blockType "cave_air" then st
  else
    let out := emitted st ++ [MSetblock position blockType] in
    let out := if atChunkStart (blocksPlaced st) then out ++ [MTick] else out in
    mkRaster (blocksPlaced st + 1) out.

Definition floorPoint (p : Point) : BlockPos :=
  (nfloor (px p), nfloor (py p), nfloor (pz p)).

(** [Math.max(1, distanceBetweenPoints(a, b))] *)
Definition stepsBetween (a b : Point) : Num :=
  nmax (numZ 1) (distanceBetweenPoints a b).

(** The number of turns of [for (let i = 0; i < distance; i++)]. *)
Definition turns (distance : Num) : nat :=
  match distance with
  | Some d => Z.to_nat (Qceiling d)
  | None => 0
  end.

(** The body of the loop of [buildLine]. *)
Definition lineStep (pointA pointB : Point) (texture : NdArray) (uvA uvB : UV)
    (distance : Num) (i : Z) (st : Raster) : Raster :=
  let point := lerp3D pointA pointB (ndiv (numZ i) distance) in
  let pointUV := lerp2D uvA uvB (ndiv (numZ i) distance) in
  let block := getBlockFromUV texture pointUV in
  setBlock (floorPoint point) block st.

(** [for (let i = ...; i < distance; i++) body], at most [fuel] turns. *)
Fixpoint forUpTo (fuel : nat) (distance : Num) (body : Z -> Raster -> Raster)
    (i : Z) (st : Raster) : Raster :=
  match fuel with
  | O => st
  | S fuel =>
      if nlt (numZ i) distance
      then forUpTo fuel distance body (i + 1) (body i st)
      else st
  end.

Definition buildLine (pointA pointB : Point) (texture : NdArray)
    (uvA uvB : UV) (st : Raster) : Raster :=
  let distance := stepsBetween pointA pointB in
  forUpTo (turns distance) distance
          (lineStep pointA pointB texture uvA uvB distance) 0 st.

Definition buildTriangle (pointA pointB pointC : Point) (texture : NdArray)
    (uvA uvB uvC : UV) (st : Raster) : Raster :=
  let distance := stepsBetween pointA pointB in
  forUpTo (turns distance) distance
          (fun i st =>
             let pointAB := lerp3D pointA pointB (ndiv (numZ i) distance) in
             let uvAB := lerp2D uvA uvB (ndiv (numZ i) distance) in
             buildLine pointAB pointC texture uvAB uvC st)
          0 st.

Definition buildQuad (pointA pointB pointC pointD : Point) (texture : NdArray)
    (uv0 uv1 uv2 uv3 : UV) (st : Raster) : Raster :=
  let st := buildTriangle pointA pointB pointC texture uv0 uv1 uv2 st in
  buildTriangle pointC pointD pointA texture uv2 uv3 uv0 st.

End Rasteriser.

(** *** The mesh parser ([parseModelData]) *)

Section Parser.
Context `{Host}.

(** [parseFloat(parts[i])]; a missing part is [NaN]. *)
Definition floatAt (parts : list string) (i : nat) : Num :=
  s ← parts !! i; parseFloat s.

(** [n - 1], [NaN] when [n] is *)
Definition pred1 (n : option Z) : option Z := (fun n => n - 1) <$> n.

(** One vertex reference of an [f] line: the vertex index, and the UV
    index, [0] when the reference has no [/uv] part or an empty one. *)
Definition parseFaceRef (part : string) : option Z * option Z :=
  let faceData := Js.split "/" part in
  let v := pred1 (Parse.parseInt (default "" (faceData !! 0%nat))) in
  let uv :=
    match faceData !! 1%nat with
    | Some s => if negb (String.eqb s "") then pred1 (Parse.parseInt s) else Some 0
    | None => Some 0
    end in
  (v, uv).

Definition parseRow (m : Model) (row : string) : Model :=
  let parts := Parse.words [] row in
  match parts with
  | "v" :: _ =>
      mkModel (msize m)
        (vertices m ++ [mkPoint (floatAt parts 1) (floatAt parts 2) (floatAt parts 3)])
        (faces m) (uvs m) (vts m)
  | "vt" :: _ =>
      mkModel (msize m) (vertices m) (faces m) (uvs m)
        (vts m ++ [(floatAt parts 1, floatAt parts 2)])
  | "f" :: refs =>
      let parsed := map parseFaceRef refs in
      mkModel (msize m) (vertices m)
        (faces m ++ [map fst parsed]) (uvs m ++ [map snd parsed]) (vts m)
  | _ => m
  end.

Definition parseModelData (data : string) : Model :=
  let rows :=
    filter (fun row => row ≠ "") (map Parse.trim (Js.split "010" data)) in
  foldl parseRow (mkModel 1 [] [] [] []) rows.

End Parser.

(** *** The mesh build ([buildModel]) *)

(** The build finished, or stopped at a [TypeError]; either way with
    what had been sent to the bot. *)
Inductive MeshRes :=
| MeshDone (st : Raster)
| MeshThrew (st : Raster).

Section ModelBuild.
Context `{Host}.
Variable palettes : gmap string (list Swatch).
Variable settings : Settings.
Variable texture : NdArray.
Variable model : Model.
Variable position : Point.
Variable size : Q.

(** [arr[i]] for an index that may be [NaN], negative or too large *)
Definition at_index {A} (arr : list A) (i : option Z) : option A :=
  i ← i; if i <? 0 then None else arr !! Z.to_nat i.

(** [(1 / model.size) * size] *)
Definition scaleOf : Q := ((1 / inject_Z (msize model)) * size)%Q.

(** [position.offset(vertex.x * scale, vertex.y * scale, vertex.z * scale)] *)
Definition place (vertex : Point) : Point :=
  mkPoint (nadd (px position) (nmul (px vertex) (Some scaleOf)))
          (nadd (py position) (nmul (py vertex) (Some scaleOf)))
          (nadd (pz position) (nmul (pz vertex) (Some scaleOf))).

(** [model.faces[index].map(...)]: [None] when a vertex is missing (the
    source throws on [vertex.x]). *)
Definition facePoints (face : list (option Z)) : option (list Point) :=
  mapM (fun vertexIndex => place <$> at_index (vertices model) vertexIndex) face.

(** [model.vts[vtIndex] || [0, 0]] *)
Definition uvOf (vtIndex : option Z) : UV :=
  default (numZ 0, numZ 0) (at_index (vts model) vtIndex).

(** [model.uvs[index].map(...)] *)
Definition faceUVsOf (uvRow : list (option Z)) : list UV := map uvOf uvRow.

(** [for (let k = 0; k < face.length - 1; k++) buildLine(face[k], face[k + 1], ...)];
    a face longer than its row of UVs is a [TypeError]. *)
Fixpoint edgeLines (face : list Point) (faceUVs : list UV) (st : Raster)
    : MeshRes :=
  match face with
  | a :: (b :: _) as face' =>
      match faceUVs with
      | uvA :: (uvB :: _) as faceUVs' =>
          edgeLines face' faceUVs'
            (buildLine palettes settings a b texture uvA uvB st)
      | _ => MeshThrew st
      end
  | _ => MeshDone st
  end.

(** The triangle or the quad of a face, by its arity. *)
Definition faceFill (face : list Point) (faceUVs : list UV) (st : Raster)
    : MeshRes :=
  match face with
  | [a; b; c] =>
      match faceUVs with
      | uv0 :: uv1 :: uv2 :: _ =>
          MeshDone (buildTriangle palettes settings a b c texture uv0 uv1 uv2 st)
      | _ => MeshThrew st
      end
  | [a; b; c; d] =>
      match faceUVs with
      | uv0 :: uv1 :: uv2 :: uv3 :: _ =>
          MeshDone (buildQuad palettes settings a b c d texture uv0 uv1 uv2 uv3 st)
      | _ => MeshThrew st
      end
  | _ => MeshDone st
  end.

(** One turn of the loop over the faces. *)
Definition buildFace (face : list (option Z)) (uvRow : option (list (option Z)))
    (st : Raster) : MeshRes :=
  match facePoints face, uvRow with
  | Some face, Some uvRow =>
      let faceUVs := faceUVsOf uvRow in
      match faceFill face faceUVs st with
      | MeshDone st => edgeLines face faceUVs st
      | MeshThrew st => MeshThrew st
      end
  | _, _ => MeshThrew st
  end.

Fixpoint buildFaces (index : nat) (fs : list (list (option Z))) (st : Raster)
    : MeshRes :=
  match fs with
  | [] => MeshDone st
  | face :: fs =>
      match buildFace face (uvs model !! index) st with
      | MeshDone st => buildFaces (S index) fs st
      | MeshThrew st => MeshThrew st
      end
  end.

(** The [points] build: one marker block and one tick per vertex. *)
Definition buildPoints (st : Raster) : Raster :=
  foldl (fun st vertex =>
           mkRaster (blocksPlaced st)
             (emitted st ++
                [MSetblock (floorPoint (place vertex)) "light_blue_concrete"; MTick]))
        st (vertices model).

(** [buildModel]; the two chat messages that announce the build are not
    part of what is recorded. *)
Definition buildModel (points : bool) (st : Raster) : MeshRes :=
  if points then MeshDone (buildPoints st)
  else buildFaces 0 (faces model) st.

End ModelBuild.

(** A [/setblock] was sent for the position. *)
Definition placedAt (p : Z * Z * Z) (events : list MeshEvent) : bool :=
  existsb (fun e =>
             match e with
             | MSetblock (Some x, Some y, Some z) _ =>
                 let '(px, py, pz) := p in
                 (x =? px) && (y =? py) && (z =? pz)
             | _ => false
             end) events.

(** What a mesh build sent, finished or not. *)
Definition sent (r : MeshRes) : list MeshEvent :=
  match r with MeshDone st | MeshThrew st => emitted st end.

(** ** The palette argument of the commands ([resolvePaletteArgument]) *)

Inductive PaletteError :=
| PaletteRequired                        (** ['Palette is required. ...'] *)
| UnknownPalettes (missing : list string). (** ['Unknown palette(s): ...'] *)

(** [resolvePaletteArgument(paletteArg)]; [None] is [undefined] or
    [null].  The error is the exception thrown.  A name is missing when
    [palettes[name]] finds nothing, neither a key of the table nor an
    inherited property. *)
Definition resolvePaletteArgument (palettes : gmap string (list Swatch))
    (paletteArg : option string) : PaletteError + string :=
  match paletteArg with
  | None => inl PaletteRequired
  | Some arg =>
      if String.eqb arg "" then inl PaletteRequired
      else
        let text := Parse.trim arg in
        if String.eqb text "" then inl PaletteRequired
        else
          let parts := Js.split "+" text in
          let missing :=
            filter (fun part => Proto.isAbsent (Proto.member palettes part) = true)
                   parts in
          match missing with
          | [] => inr text
          | _ => inl (UnknownPalettes missing)
          end
  end.

(** ** A concrete host, palettes and images for the closed examples *)

Module Example.

Definition sq (a b : Chan) : Q :=
  match a, b with
  | Some x, Some y => inject_Z ((x - y) * (x - y))
  | _, _ => 0%Q
  end.

(** The square root of a rational, exact on the squares [(n/d)^2] and
    rounded down otherwise. *)
Definition sqrtQ (q : Q) : Q :=
  Z.sqrt (Qnum q * Zpos (Qden q)) # Qden q.

(** A sign, digits and an optional fraction: the decimal numbers the
    example meshes use. *)
Definition parseDecimal (s : string) : option Q :=
  let s := Parse.trimStart s in
  let '(sign, s) :=
    match s with
    | String "-" rest => (-1, rest)
    | String "+" rest => (1, rest)
    | _ => (1, s)
    end in
  let '(whole, seen) := Parse.digits 0 false s in
  let fix after (s : string) : string :=
    match s with
    | String c rest => if Parse.isDigit c then after rest else s
    | EmptyString => EmptyString
    end in
  let fix count (s : string) : nat :=
    match s with
    | String c rest => if Parse.isDigit c then S (count rest) else O
    | EmptyString => O
    end in
  match after s with
  | String "." frac =>
      let '(f, seenF) := Parse.digits 0 false frac in
      if seen || seenF
      then Some (inject_Z sign *
                 (inject_Z whole + (f # Pos.of_nat (10 ^ count frac))))%Q
      else None
  | _ => if seen then Some (inject_Z (sign * whole)) else None
  end.

#[export] Instance host : Host := {|
  colourDistances_rgb r1 g1 b1 r2 g2 b2 := (sq r1 r2 + sq g1 g2 + sq b1 b2)%Q;
  LabColor := RGB;
  antiColor_rgb2lab c := c;
  antiColor_deltaE c1 c2 :=
    let '(r1, g1, b1) := c1 in
    let '(r2, g2, b2) := c2 in
    sqrtQ (sq r1 r2 + sq g1 g2 + sq b1 b2)%Q;
  Math_hypot dx dy dz := sqrtQ (dx * dx + dy * dy + dz * dz)%Q;
  parseFloat := parseDecimal
|}.

Definition grey (v : Z) : RGB := (Some v, Some v, Some v).

Definition white := mkSwatch "white_concrete" (grey 255) (grey 255).
Definition black := mkSwatch "black_concrete" (grey 0) (grey 0).
Definition clay := mkSwatch "terracotta" (grey 128) (grey 128).
(** Two swatches of one colour, at equal distance from every sample. *)
Definition stone := mkSwatch "stone" (grey 100) (grey 100).
Definition andesite := mkSwatch "andesite" (grey 100) (grey 100).

Definition palettes : gmap string (list Swatch) :=
  list_to_map
    [("concrete", [white; black]);
     ("terracotta", [clay]);
     ("twins", [stone; andesite]);
     ("zero-gravity", [white; black])].

Definition settings (chunk : Z) (cmds : bool) : Settings :=
  mkSettings Average MRGB chunk cmds.

(** A [w x h] image with [c] channels over [data], laid out as
    [get-pixels] does. *)
Definition image (w h c : Z) (data : list Z) : NdArray :=
  mkNdArray data [w; h; c] [c; c * w; 1] 0.

(** A 2 x 2 opaque picture: white, black, black, white. *)
Definition checker : NdArray :=
  image 2 2 4 [255; 255; 255; 255;  0; 0; 0; 255;
               0; 0; 0; 255;  255; 255; 255; 255].

Definition idle : PrintData := mkPrintData false 0 0 None false 0 0 None.
Definition fresh : World := mkWorld idle [] 0 [].
Definition noOptions : BuildOptions := mkBuildOptions None None None.
Definition origin : Vec3 := mkVec3 0 0 0.

(** [stop] is typed during the [n]-th call. *)
Definition stopAt (n : nat) : Env :=
  fun i => mkReaction (Nat.eqb i n) false.

(** The fourth call into the bot fails. *)
Definition failsAt3 : Env := fun n => mkReaction false (Nat.eqb n 3).

(** One-pixel textures: opaque and fully transparent. *)
Definition opaqueTexel : NdArray := image 1 1 4 [10; 20; 30; 255].
Definition clearTexel : NdArray := image 1 1 4 [10; 20; 30; 0].
(** Two pixels side by side, in an array of three channels. *)
Definition rgbPair : NdArray := image 2 1 3 [10; 20; 30; 40; 50; 60].

Definition point (x y z : Z) : Point := mkPoint (numZ x) (numZ y) (numZ z).
Definition uv0 : UV := (numZ 0, numZ 0).
Definition empty : Raster := mkRaster 0 [].

(** A quad whose corners A, B and C are the origin and whose corner D
    is three blocks along [x]: all its lengths are whole numbers. *)
Definition quadModel : Model :=
  mkModel 1 [point 0 0 0; point 0 0 0; point 0 0 0; point 3 0 0]
    [[Some 0; Some 1; Some 2; Some 3]] [[Some 0; Some 0; Some 0; Some 0]] [].

(** A triangle whose vertex references carry no UV index, in a mesh
    that defines one UV coordinate. *)
Definition triangleText : string :=
  "vt 0.5 0.25
v 0 0 0
v 1 0 0
v 0 0 1
f 1 2 3
".

End Example.

(** * Further definitions *)

(** ** More JavaScript string helpers *)

Module Text.

(** [pieces.join(sep)] *)
Fixpoint join (sep : string) (pieces : list string) : string :=
  match pieces with
  | [] => ""
  | [p] => p
  | p :: rest => p +:+ sep +:+ join sep rest
  end.

(** No character of the string is white space. *)
Fixpoint spaceFree (s : string) : bool :=
  match s with
  | EmptyString => true
  | String c rest => negb (Parse.isSpace c) && spaceFree rest
  end.

End Text.

(** ** Reading the end of a build *)

(** The world a piece of the build ends in. *)
Definition endWorld {A} (r : Res A) : option World :=
  match r with
  | Done _ w | Raised w => Some w
  | Starved => None
  end.



(** ** Well-formed images *)

(** A still image as [get-pixels] lays it out: [w] by [h] pixels of [c]
    channels over a buffer of [w * h * c] values. *)
Record Packed (image : NdArray) (w h c : Z) : Prop := mkPacked {
  packed_shape : shape image = [w; h; c];
  packed_stride : stride image = [c; c * w; 1];
  packed_offset : offset image = 0;
  packed_data : Z.of_nat (length (data image)) = w * h * c;
  packed_size : 0 < w ∧ 0 < h ∧ 0 < c
}.


(** ** What a [stop] does to a build *)


(** ** What a mesh build sends *)

(** One call of [setBlock] that sent something: the position, the
    block, and whether a tick followed the [/setblock]. *)
Definition Placement : Type := BlockPos * string * bool.

Definition eventsOf (g : Placement) : list MeshEvent :=
  let '(p, b, ticked) := g in
  MSetblock p b :: (if ticked : bool then [MTick] else []).

(** The state a mesh build ends in, finished or not. *)
Definition meshState (r : MeshRes) : Raster :=
  match r with MeshDone st | MeshThrew st => st end.

(** [st'] continues [st]: what had been sent is still there, followed by
    the events of some placements; the counter grew by their number;
    none of them is of air or cave air; and a tick follows exactly the
    placements made while the counter was at a multiple of the chunk
    size. *)
Definition Extends (settings : Settings) (st st' : Raster) : Prop :=
  ∃ placements : list Placement,
    emitted st' = emitted st ++ flat_map eventsOf placements
    ∧ blocksPlaced st' = blocksPlaced st + Z.of_nat (length placements)
    ∧ ∀ (k : nat) p b ticked,
        placements !! k = Some (p, b, ticked) →
        b ≠ "air" ∧ b ≠ "cave_air"
        ∧ ticked = atChunkStart settings (blocksPlaced st + Z.of_nat k).

(** Every vertex index of the face refers to a vertex of the mesh. *)
Definition faceInRange (model : Model) (face : list (option Z)) : Prop :=
  Forall (fun i => is_Some (at_index (vertices model) i)) face.

(** ** The command line ([command-manager.js]) *)

Module CommandManager.

(** [c.toLowerCase()] of a one-byte code unit: the letters A-Z and the
    capital letters of Latin-1. *)
Definition lowerChar (c : ascii) : ascii :=
  let n := nat_of_ascii c in
  if ((65 <=? n) && (n <=? 90)
      || (192 <=? n) && (n <=? 222) && negb (n =? 215))%nat
  then ascii_of_nat (n + 32) else c.

(** [s.toLowerCase()] *)
Fixpoint toLowerCase (s : string) : string :=
  match s with
  | EmptyString => EmptyString
  | String c rest => String (lowerChar c) (toLowerCase rest)
  end.

(** *** [tokenize] *)

Inductive TokenizeError :=
| UnterminatedQuote  (** ['Unterminated quote in command input.'] *)
| TrailingEscape.    (** ['Trailing escape character in command input.'] *)

(** The variables of the loop of [tokenize]. *)
Record Scanner := mkScanner {
  tokens : list string;
  current : string;
  escapeNext : bool;
  quoteChar : option ascii
}.

Definition backslash : ascii := "092".
Definition doubleQuote : ascii := "034".
Definition singleQuote : ascii := "039".

(** [current += char] *)
Definition pushChar (current : string) (char : ascii) : string :=
  current +:+ String char EmptyString.

(** One turn of the loop, on the character [char]. *)
Definition tokenizeStep (sc : Scanner) (char : ascii) : Scanner :=
  if escapeNext sc then
    mkScanner (tokens sc) (pushChar (current sc) char) false (quoteChar sc)
  else if Ascii.eqb char backslash then
    mkScanner (tokens sc) (current sc) true (quoteChar sc)
  else
    match quoteChar sc with
    | Some q =>
        if Ascii.eqb char q
        then mkScanner (tokens sc) (current sc) false None
        else mkScanner (tokens sc) (pushChar (current sc) char) false (Some q)
    | None =>
        if Ascii.eqb char doubleQuote || Ascii.eqb char singleQuote
        then mkScanner (tokens sc) (current sc) false (Some char)
        else if Parse.isSpace char then
          if negb (String.eqb (current sc) "")
          then mkScanner (tokens sc ++ [current sc]) "" false None
          else sc
        else mkScanner (tokens sc) (pushChar (current sc) char) false None
    end.

(** What follows the loop. *)
Definition tokenizeEnd (sc : Scanner) : TokenizeError + list string :=
  match quoteChar sc with
  | Some _ => inl UnterminatedQuote
  | None =>
      if escapeNext sc then inl TrailingEscape
      else if negb (String.eqb (current sc) "")
           then inr (tokens sc ++ [current sc])
           else inr (tokens sc)
  end.

Definition tokenize (input : string) : TokenizeError + list string :=
  tokenizeEnd
    (foldl tokenizeStep (mkScanner [] "" false None)
       (list_ascii_of_string input)).

(** The input holds no backslash and no quote. *)
Fixpoint isPlain (s : string) : bool :=
  match s with
  | EmptyString => true
  | String c rest =>
      negb (Ascii.eqb c backslash) && negb (Ascii.eqb c doubleQuote)
      && negb (Ascii.eqb c singleQuote) && isPlain rest
  end.

(** *** [register] and [find] *)

Section Registry.
Variable Handler : Type.

(** The object passed to [register]; [None] is a missing property (or,
    for [aliases], one that is not an array, and for [handler], one
    that is not a function). *)
Record CommandDefinition := mkDefinition {
  d_name : option string;
  d_aliases : option (list string);
  d_handler : option Handler;
  d_usage : option string;
  d_description : option string;
  d_hidden : bool
}.

Record Command := mkCommand {
  name : string;
  handler : Handler;
  usage : string;
  description : string;
  aliases : list string;
  hidden : bool
}.

(** The two maps of the manager. *)
Record Manager := mkManager {
  commands : gmap string Command;
  aliasToName : gmap string string
}.

Inductive RegisterError :=
| NoDefinition                      (** ['Cannot register command without a definition object.'] *)
| NameMissing                       (** ['Command definition must include a name.'] *)
| NameRegistered (name : string)    (** ['Command ... is already registered.'] *)
| AliasRegistered (alias : string)  (** ['Alias ... is already registered.'] *)
| HandlerMissing (name : string).   (** ['Command ... is missing a handler.'] *)

(** [definition.aliases], lowered, [[]] when it is not an array *)
Definition aliasesOf (d : CommandDefinition) : list string :=
  match d_aliases d with
  | Some al => map toLowerCase al
  | None => []
  end.

(** The loop [for (const alias of aliases) this.aliasToName.set(alias, name)] *)
Definition setAliases (table : gmap string string) (aliases : list string)
    (name : string) : gmap string string :=
  foldl (fun table alias => <[alias := name]> table) table aliases.

Definition register (m : Manager) (definition : option CommandDefinition)
    : RegisterError + (Manager * Command) :=
  match definition with
  | None => inl NoDefinition
  | Some d =>
      match toLowerCase <$> d_name d with
      | None => inl NameMissing
      | Some name =>
          if String.eqb name "" then inl NameMissing
          else if bool_decide (is_Some (commands m !! name))
          then inl (NameRegistered name)
          else
            let aliases := aliasesOf d in
            match List.find
                    (fun alias => bool_decide (is_Some (aliasToName m !! alias)))
                    aliases with
            | Some alias => inl (AliasRegistered alias)
            | None =>
                match d_handler d with
                | None => inl (HandlerMissing name)
                | Some handler =>
                    let command :=
                      mkCommand name handler (default "" (d_usage d))
                        (default "" (d_description d)) aliases (d_hidden d) in
                    inr (mkManager (<[name := command]> (commands m))
                           (setAliases (aliasToName m) aliases name),
                         command)
                end
            end
      end
  end.

(** [find(name)]; [None] is [undefined], as argument and as result. *)
Definition find (m : Manager) (name : option string) : option Command :=
  match name with
  | None => None
  | Some name =>
      if String.eqb name "" then None
      else
        let lowered := toLowerCase name in
        match commands m !! lowered with
        | Some command => Some command
        | None =>
            match aliasToName m !! lowered with
            | Some resolved =>
                if String.eqb resolved "" then None
                else commands m !! resolved
            | None => None
            end
        end
  end.

End Registry.

Arguments name {Handler}.
Arguments handler {Handler}.
Arguments usage {Handler}.
Arguments description {Handler}.
Arguments aliases {Handler}.
Arguments hidden {Handler}.
Arguments commands {Handler}.
Arguments aliasToName {Handler}.
Arguments d_name {Handler}.
Arguments d_aliases {Handler}.
Arguments d_handler {Handler}.
Arguments register {Handler}.
Arguments find {Handler}.
Arguments aliasesOf {Handler}.

End CommandManager.

(** A small command table for the closed examples; the handlers are
    stood for by strings. *)
Module CommandExample.
Import CommandManager.

Definition start : Manager string := mkManager string ∅ ∅.

Definition helpDefinition : CommandDefinition string :=
  mkDefinition string (Some "Help") (Some ["?"; "H"]) (Some "show help")
    None None false.

Definition helpCommand : Command string :=
  mkCommand string "help" "show help" "" "" ["?"; "h"] false.

Definition withHelp : Manager string :=
  mkManager string (<["help" := helpCommand]> ∅)
    (setAliases ∅ ["?"; "h"] "help").

(** A command named like an alias of [help]. *)
Definition markDefinition : CommandDefinition string :=
  mkDefinition string (Some "?") None (Some "ask") None None false.

Definition markCommand : Command string :=
  mkCommand string "?" "ask" "" "" [] false.

Definition withMark : Manager string :=
  mkManager string (<["?" := markCommand]> (commands withHelp))
    (aliasToName withHelp).

End CommandExample.

(** ** The size argument of [draw] and [gif] *)

Module Size.

(** [{ width, height, frames }] *)
Record Dimensions := mkDimensions { width : Z; height : Z; frames : Z }.

(** [getImageDimensions(image)]; [None] is the exception
    ['Unsupported image format.'] *)
Definition getImageDimensions (image : NdArray) : option Dimensions :=
  match shape image with
  | [w; h; _] => Some (mkDimensions w h 1)
  | [f; w; h; _] => Some (mkDimensions w h f)
  | _ => None
  end.

Inductive SizeError :=
| BadFormat          (** ['Size must be provided as <width> or <width>x<height>.'] *)
| WidthNotPositive   (** ['Width must be greater than zero.'] *)
| HeightNotPositive. (** ['Height must be greater than zero.'] *)

(** [s.replace(/\s+/g, '')] *)
Fixpoint removeSpaces (s : string) : string :=
  match s with
  | EmptyString => EmptyString
  | String c rest =>
      if Parse.isSpace c then removeSpaces rest
      else String c (removeSpaces rest)
  end.

(** The longest prefix of decimal digits, and what follows it. *)
Fixpoint spanDigits (s : string) : string * string :=
  match s with
  | EmptyString => (EmptyString, EmptyString)
  | String c rest =>
      if Parse.isDigit c
      then let '(d, r) := spanDigits rest in (String c d, r)
      else (EmptyString, s)
  end.

(** [text.match(/^(\d+)(?:x(\d+))?$/)]: the two groups of a match, the
    second [None] when it took no part. *)
Definition matchSize (text : string) : option (string * option string) :=
  let '(w, rest) := spanDigits text in
  if String.eqb w "" then None
  else
    match rest with
    | EmptyString => Some (w, None)
    | String "x" rest =>
        let '(h, rest) := spanDigits rest in
        if String.eqb h "" then None
        else if String.eqb rest "" then Some (w, Some h) else None
    | _ => None
    end.

(** [n <= 0], false for [NaN] *)
Definition notPositive (n : option Z) : bool :=
  match n with
  | Some n => n <=? 0
  | None => false
  end.

(** [Math.max(1, Math.round(dimensions.height * (width / dimensions.width)))];
    [None] is [NaN] or [Infinity], which only a [NaN] width or a
    division by zero give. *)
Definition inferHeight (w : option Z) (dimensions : Dimensions) : option Z :=
  match w with
  | None => None
  | Some w =>
      if width dimensions =? 0
      then if Z.sgn w * Z.sgn (height dimensions) <? 0 then Some 1 else None
      else
        Some (Z.max 1
                (Qround (inject_Z (height dimensions)
                         * (inject_Z w / inject_Z (width dimensions)))))
  end.

(** [parseSizeArgument(sizeArg, dimensions)] for an argument that is a
    string, or [undefined] or [null] ([None]). *)
Definition parseSizeArgument (sizeArg : option string)
    (dimensions : Dimensions) : SizeError + (option Z * option Z) :=
  match sizeArg with
  | None => inr (Some (width dimensions), Some (height dimensions))
  | Some arg =>
      if String.eqb arg ""
      then inr (Some (width dimensions), Some (height dimensions))
      else
        let text := removeSpaces (CommandManager.toLowerCase arg) in
        match matchSize text with
        | None => inl BadFormat
        | Some (group1, group2) =>
            let w := Parse.parseInt group1 in
            if notPositive w then inl WidthNotPositive
            else
              match group2 with
              | Some group2 =>
                  if negb (String.eqb group2 "") then
                    let h := Parse.parseInt group2 in
                    if notPositive h then inl HeightNotPositive
                    else inr (w, h)
                  else inr (w, inferHeight w dimensions)
              | None => inr (w, inferHeight w dimensions)
              end
        end
  end.

End Size.

(** * Properties *)

(** ** Strings *)

Lemma split_nonempty sep s : Js.split sep s ≠ [].
Proof.
  induction s as [|c s IH]; simpl; [done|].
  destruct (Ascii.eqb c sep); [done|].
  destruct (Js.split sep s); done.
Qed.

Lemma split_lacks sep s : Js.lacks sep s = true → Js.split sep s = [s].
Proof.
  induction s as [|c s IH]; simpl; [done|].
  intros [Hc Hs]%andb_true_iff.
  apply negb_true_iff in Hc. rewrite Hc, (IH Hs). done.
Qed.

Lemma split_app sep a b :
  Js.lacks sep a = true →
  Js.split sep (a +:+ String sep b) = a :: Js.split sep b.
Proof.
  induction a as [|c a IH]; simpl.
  - intros _. by rewrite Ascii.eqb_refl.
  - intros [Hc Ha]%andb_true_iff.
    apply negb_true_iff in Hc. rewrite Hc.
    change (a ++ String sep b)%string with (a +:+ String sep b).
    by rewrite (IH Ha).
Qed.

(** ** Palette resolver *)

Lemma parsePaletteString_fold (palettes : gmap string (list Swatch)) names acc :
  foldl (fun palette paletteName =>
           match palettes !! paletteName with
           | Some swatches => palette ++ swatches
           | None => palette
           end) acc names
  = acc ++ flat_map (swatchesOf palettes) names.
Proof.
  revert acc. induction names as [|n names IH]; intros acc; simpl.
  - by rewrite app_nil_r.
  - rewrite IH. unfold swatchesOf at 2.
    destruct (palettes !! n); simpl; [by rewrite <- app_assoc | done].
Qed.

Lemma parsePaletteString_flat_map (palettes : gmap string (list Swatch)) key :
  parsePaletteString palettes key
  = flat_map (swatchesOf palettes) (Js.split "+" key).
Proof. unfold parsePaletteString. by rewrite parsePaletteString_fold. Qed.

(** C9: for palettes [a] and [b] (two defined names, which as names of a
    key hold no [+]), the key [a+b] resolves to the swatches of [a]
    followed by the swatches of [b], every swatch kept, in order.  The
    palette table is only read: it is an argument of the function, which
    returns the new sequence and nothing else. *)
Theorem C9_combined_key_is_concatenation
    (palettes : gmap string (list Swatch)) (a b : string) (sa sb : list Swatch) :
  palettes !! a = Some sa →
  palettes !! b = Some sb →
  Js.lacks "+" a = true →
  Js.lacks "+" b = true →
  parsePaletteString palettes (a +:+ "+" +:+ b) = sa ++ sb.
Proof.
  intros Ha Hb La Lb.
  rewrite parsePaletteString_flat_map.
  change (a +:+ "+" +:+ b) with (a +:+ String "+" b).
  rewrite (split_app _ _ _ La), (split_lacks _ _ Lb). simpl.
  unfold swatchesOf. rewrite Ha, Hb. simpl. by rewrite app_nil_r.
Qed.

Lemma C9_combined_key_witness :
  parsePaletteString Example.palettes ("concrete" +:+ "+" +:+ "terracotta")
  = [Example.white; Example.black] ++ [Example.clay].
Proof.
  apply (C9_combined_key_is_concatenation Example.palettes
           "concrete" "terracotta"); reflexivity.
Defined.

(** *** Names found on [Object.prototype] *)

Lemma pushAll_spec (palettes : gmap string (list Swatch)) (names : list string) :
  ∀ palette,
    Proto.pushAll palettes names palette
    = if existsb (fun name => Proto.notIterable (Proto.member palettes name))
           names
      then Proto.TypeError
      else Proto.Gives (palette ++ flat_map (swatchesOf palettes) names).
Proof.
  induction names as [|name names IH]; intros palette; simpl.
  - by rewrite app_nil_r.
  - unfold Proto.member, swatchesOf at 1.
    destruct (palettes !! name) as [swatches|]; simpl.
    + rewrite IH. destruct (existsb _ names); [done|]. by rewrite app_assoc.
    + destruct (Proto.inherited name); simpl; [done|]. apply IH.
Qed.

(** Where the two lookups agree: [Proto.parsePaletteString] throws when
    a name of the key is found on [Object.prototype] only, and returns
    what [parsePaletteString] returns otherwise. *)
Lemma Proto_parsePaletteString_spec
    (palettes : gmap string (list Swatch)) (key : string) :
  Proto.parsePaletteString palettes key
  = if existsb (fun name => Proto.notIterable (Proto.member palettes name))
         (Js.split "+" key)
    then Proto.TypeError
    else Proto.Gives (parsePaletteString palettes key).
Proof.
  unfold Proto.parsePaletteString.
  by rewrite pushAll_spec, parsePaletteString_flat_map.
Qed.

Lemma existsb_notIterable (palettes : gmap string (list Swatch))
    (names : list string) :
  existsb (fun name => Proto.notIterable (Proto.member palettes name)) names
  = false
  ↔ ∀ name, name ∈ names → Proto.member palettes name ≠ Proto.Inherited.
Proof.
  induction names as [|n names IH]; simpl.
  - split; [|done]. intros _ name Hin. by apply elem_of_nil in Hin.
  - rewrite orb_false_iff, IH. split.
    + intros [Hn Hrest] name [-> | Hin]%elem_of_cons; [|by apply Hrest].
      by destruct (Proto.member palettes n).
    + intros Hall. split.
      * specialize (Hall n ltac:(left)).
        by destruct (Proto.member palettes n).
      * intros name Hin. apply Hall. by right.
Qed.




(** ** Colour matcher *)

Lemma Qltb_lt a b : Qltb a b = true ↔ (a < b)%Q.
Proof.
  unfold Qltb. rewrite negb_true_iff.
  split.
  - intros Hf. apply Qnot_le_lt. intros Hle.
    apply Qle_bool_iff in Hle. congruence.
  - intros Hlt. destruct (Qle_bool b a) eqn:E; [|done].
    apply Qle_bool_iff in E. exfalso. by apply (Qlt_not_le a b).
Qed.

Lemma Qltb_ge a b : Qltb a b = false ↔ (b <= a)%Q.
Proof.
  unfold Qltb. rewrite negb_false_iff. apply Qle_bool_iff.
Qed.

Section ScanFacts.
Context `{Host}.
Variable settings : Settings.
Variable modeArg : Metric.
Variable c : RGB.

Let d := distanceTo settings modeArg c.

Lemma scanStep_distanceTo best swatch :
  scanStep settings modeArg c best swatch
  = if Qltb (d best) (d swatch) then best else swatch.
Proof.
  unfold scanStep, d, distanceTo. by destruct (useLab settings modeArg).
Qed.

Lemma scan_lastNearest first others :
  ∃ j, lastNearest settings modeArg c (first :: others)
         (scan settings modeArg c first others) j.
Proof.
  unfold scan, lastNearest. fold d.
  induction others as [|x others IH] using rev_ind.
  - exists 0%nat. split; [done|]. intros i s Hs.
    destruct i as [|i]; simpl in Hs; [|by rewrite lookup_nil in Hs].
    injection Hs as <-. split; [apply Qle_refl | lia].
  - destruct IH as (j & Hj & Hmin).
    rewrite foldl_app. simpl. rewrite scanStep_distanceTo.
    set (best := foldl _ first others) in *.
    assert (Hlen : (j < length (first :: others))%nat)
      by (eapply lookup_lt_Some; exact Hj).
    destruct (Qltb (d best) (d x)) eqn:E.
    + apply Qltb_lt in E. exists j. split.
      * change (first :: others ++ [x]) with ((first :: others) ++ [x]).
        by rewrite lookup_app_l.
      * intros i s Hs.
        change (first :: others ++ [x]) with ((first :: others) ++ [x]) in Hs.
        apply lookup_app_Some in Hs as [Hs | [Hge Hs]].
        -- by apply Hmin.
        -- destruct (i - length (first :: others))%nat; simpl in Hs;
             [|by rewrite lookup_nil in Hs].
           injection Hs as <-. split; [by apply Qlt_le_weak | done].
    + apply Qltb_ge in E. exists (length (first :: others)). split.
      * change (first :: others ++ [x]) with ((first :: others) ++ [x]).
        rewrite lookup_app_r by lia. by rewrite Nat.sub_diag.
      * intros i s Hs.
        change (first :: others ++ [x]) with ((first :: others) ++ [x]) in Hs.
        apply lookup_app_Some in Hs as [Hs | [Hge Hs]].
        -- split.
           ++ eapply Qle_trans; [exact E|]. by apply (Hmin i).
           ++ intros Hlt. apply lookup_lt_Some in Hs. lia.
        -- destruct (i - length (first :: others))%nat eqn:Ei; simpl in Hs;
             [|by rewrite lookup_nil in Hs].
           injection Hs as <-. split; [apply Qle_refl | lia].
Qed.

End ScanFacts.

(** C1, as the code has it: the scan keeps the running best only when
    the running best is strictly nearer than the new swatch, and takes
    the new swatch otherwise, so also at equal distance.  The swatch
    returned is therefore the last one at the least distance: no swatch
    is nearer and every later swatch is strictly farther.  Of two
    swatches at equal distance the second, higher-indexed one is
    returned.  This holds for both metrics and both colour keys. *)
Theorem C1_scan_returns_last_nearest `{Host}
    (palettes : gmap string (list Swatch)) (settings : Settings)
    (modeArg : Metric) (r g b alpha : Chan)
    (first : Swatch) (others : list Swatch) :
  (∀ cur swatch,
     scanStep settings modeArg (r, g, b) cur swatch
     = if Qltb (distanceTo settings modeArg (r, g, b) cur)
               (distanceTo settings modeArg (r, g, b) swatch)
       then cur else swatch)
  ∧ (∃ j, lastNearest settings modeArg (r, g, b) (first :: others)
            (scan settings modeArg (r, g, b) first others) j)
  ∧ getBlockFromColor palettes settings (mkSample r g b alpha)
      (PaletteList (first :: others)) modeArg
    = match alpha with
      | Some 0 => "air"
      | _ => block (scan settings modeArg (r, g, b) first others)
      end
  ∧ (∀ s0 s1,
       (distanceTo settings modeArg (r, g, b) s0
        == distanceTo settings modeArg (r, g, b) s1)%Q →
       scan settings modeArg (r, g, b) s0 [s1] = s1).
Proof.
  split; [apply scanStep_distanceTo|].
  split; [apply scan_lastNearest|].
  split; [reflexivity|].
  intros s0 s1 Heq. unfold scan. simpl. rewrite scanStep_distanceTo.
  destruct (Qltb _ _) eqn:E; [|done].
  apply Qltb_lt in E. rewrite Heq in E. by apply Qlt_irrefl in E.
Qed.

(** C1, as the claim states it, fails: [stone] and [andesite] have the
    same colour, hence the same distance from the sample under either
    metric, and the matcher returns [andesite], the higher-indexed of
    the two. *)
Lemma C1_tie_returns_higher_index :
  Qeq (distanceTo (H := Example.host) (Example.settings 2 true) MRGB
         (Some 1, Some 2, Some 3) Example.stone)
      (distanceTo (H := Example.host) (Example.settings 2 true) MRGB
         (Some 1, Some 2, Some 3) Example.andesite)
  ∧ getBlockFromColor (H := Example.host) Example.palettes
      (Example.settings 2 true)
      (mkSample (Some 1) (Some 2) (Some 3) (Some 255))
      (PaletteList [Example.stone; Example.andesite]) MRGB
    = "andesite"
  ∧ Qeq (distanceTo (H := Example.host) (Example.settings 2 true) MLAB
           (Some 1, Some 2, Some 3) Example.stone)
        (distanceTo (H := Example.host) (Example.settings 2 true) MLAB
           (Some 1, Some 2, Some 3) Example.andesite)
  ∧ getBlockFromColor (H := Example.host) Example.palettes
      (Example.settings 2 true)
      (mkSample (Some 1) (Some 2) (Some 3) (Some 255))
      (PaletteList [Example.stone; Example.andesite]) MLAB
    = "andesite".
Proof. repeat split; reflexivity. Qed.

(** ** Build histories *)






(** ** Progress through the cells of a loop *)

Lemma Progress_nil_done : Progress false [] [].
Proof. done. Qed.





(** ** The scan order *)

Section VisitOrderFacts.
Variables width height c : Z.
Hypothesis c_pos : 1 <= c.

















End VisitOrderFacts.

(** ** The loops of the scheduler *)

Section SchedulerFacts.
Context `{Host}.
Variable palettes : gmap string (list Swatch).
Variable settings : Settings.
Variable env : Env.
Variable texture : NdArray.
Variable palette : PaletteArg.
Variable targetStart : Vec3.
Variables width height : Z.
Variable gif : bool.
Variable frame : Z.

Hypothesis chunk_pos : 1 <= chunkSize settings.
Hypothesis no_reject : ∀ n, rejects (env n) = false.














End SchedulerFacts.

(** ** The build scheduler: the claims *)




(** [stop] typed while the fifth call, the operation on cell (1,1), is
    pending: that operation completes, a tick passes, and the check
    before cell (0,2) ends the build with four blocks placed. *)
Example stop_during_fifth_call :
  buildImageTry (H := Example.host) Example.palettes
    (Example.settings 2 false) (Example.stopAt 4) 12 Example.checker
    (PaletteKey "concrete") Example.origin (4, 3) Example.noOptions
    Example.fresh
  = Done true
      (mkWorld
         (mkPrintData true (4 / 12) 7 (Some "Image build") true 4 12
            (Some (mkMetadata None None)))
         ["draw"] 6
         [EvOp (0, 0) (PlaceBlock (1, 0, 1) "white_concrete");
          EvOp (1, 0) (PlaceBlock (2, 0, 1) "white_concrete");
          EvTick;
          EvOp (0, 1) (PlaceBlock (1, 0, 2) "white_concrete");
          EvOp (1, 1) (PlaceBlock (2, 0, 2) "white_concrete");
          EvStop;
          EvTick]).
Proof. vm_compute. reflexivity. Qed.

(** [stop] typed while the operation on the last cell is pending comes
    too late: the twelve cells are done and the build is not
    cancelled. *)
Example stop_during_last_cell :
  fst <$> buildImage (H := Example.host) Example.palettes
            (Example.settings 2 false) (Example.stopAt 16) 12 true
            Example.checker (PaletteKey "concrete") Example.origin (4, 3)
            Example.noOptions Example.fresh
  = Some (Returned false)
  ∧ placedAtEnd
      (buildImageTry (H := Example.host) Example.palettes
         (Example.settings 2 false) (Example.stopAt 16) 12 Example.checker
         (PaletteKey "concrete") Example.origin (4, 3) Example.noOptions
         Example.fresh)
    = Some 12.
Proof. split; vm_compute; reflexivity. Qed.

(** C10: when [buildImage] or [buildGif] ends, by returning (cancelled
    or not) or by an exception, whatever the outside did meanwhile, the
    print state is reset: not printing, no task, no pending
    cancellation, both counters at zero, no metadata.  The build must
    have got past [ensureBotSpawned], or have been called on a reset
    print state, as the single-job contract requires: an exception of
    [ensureBotSpawned] leaves the print state as it was. *)
Theorem C10_print_state_reset_on_exit `{Host}
    (palettes : gmap string (list Swatch)) (settings : Settings) (env : Env)
    (texture : NdArray) (palette : PaletteArg) (startPosition : Vec3)
    (size : Z * Z) (frame : Z) (options : BuildOptions)
    (fuel : nat) (botSpawned : bool) (w w' : World) (outcome : Outcome) :
  botSpawned = true ∨ IsReset (printData w) →
  buildImage palettes settings env fuel botSpawned texture palette
    startPosition size options w = Some (outcome, w')
  ∨ buildGif palettes settings env fuel botSpawned texture palette
      startPosition size frame options w = Some (outcome, w') →
  IsReset (printData w').
Proof.
  intros Hpre Hrun.
  assert (Hfin : ∀ taskName cancelled w1,
            IsReset (printData (buildFinally taskName cancelled w1)))
    by (intros; repeat split).
  unfold buildImage, buildGif, runBuild in Hrun.
  destruct botSpawned; simpl in Hrun.
  - destruct Hrun as [Hrun | Hrun].
    + destruct (buildBody _ _ _ _ _ _ _ _ _ _ _ _) in Hrun;
        inversion Hrun; subst; apply Hfin.
    + destruct (buildBody _ _ _ _ _ _ _ _ _ _ _ _) in Hrun;
        inversion Hrun; subst; apply Hfin.
  - destruct Hpre as [Hpre | Hpre]; [done|].
    destruct Hrun as [Hrun | Hrun]; inversion Hrun; by subst.
Qed.

Lemma C10_print_state_reset_witness :
  ∃ w',
    buildImage (H := Example.host) Example.palettes
      (Example.settings 2 false) Example.failsAt3 12 true Example.checker
      (PaletteKey "concrete") Example.origin (4, 3) Example.noOptions
      Example.fresh = Some (Threw, w')
    ∧ IsReset (printData w').
Proof.
  eexists. split.
  - vm_compute. reflexivity.
  - eapply (C10_print_state_reset_on_exit (H := Example.host)
              Example.palettes (Example.settings 2 false) Example.failsAt3
              Example.checker (PaletteKey "concrete") Example.origin (4, 3) 0
              Example.noOptions 12 true Example.fresh _ Threw).
    + left. reflexivity.
    + left. vm_compute. reflexivity.
Defined.

(** ** The mesh rasteriser *)

#[local] Arguments Qfloor : simpl never.
#[local] Arguments Qceiling : simpl never.

Lemma lerp_at_0 (u u' t : Q) :
  (t == 0)%Q → ((inject_Z 1 - t) * u + t * u' == u)%Q.
Proof. intros Ht. rewrite Ht. change (inject_Z 1) with 1%Q. ring. Qed.

Section LoopFacts.

(** The loop [for (let i = ...; i < q; i++)] runs its body on
    [i, i + 1, ...] up to the last integer below [q]; the turns it is
    given are enough, and more turns change nothing. *)
Lemma forUpTo_seq (q : Q) (body : Z → Raster → Raster) n i st :
  (Z.to_nat (Qceiling q - i) <= n)%nat →
  forUpTo n (Some q) body i st
  = foldl (fun st i => body i st) st (seqZ i (Qceiling q - i)).
Proof.
  revert i st. induction n as [|n IH]; intros i st Hn.
  - rewrite seqZ_nil by lia. done.
  - simpl. destruct (Z_lt_le_dec i (Qceiling q)) as [Hlt | Hge].
    + assert (Hi : Qltb (inject_Z i) q = true).
      { apply Qltb_lt. eapply Qle_lt_trans; [|apply Qceiling_lt].
        rewrite <- Zle_Qle. lia. }
      rewrite Hi, seqZ_cons by lia. simpl.
      rewrite IH by lia. do 2 f_equal; lia.
    + assert (Hi : Qltb (inject_Z i) q = false).
      { apply Qltb_ge. eapply Qle_trans; [apply Qle_ceiling|].
        rewrite <- Zle_Qle. lia. }
      rewrite Hi, seqZ_nil by lia. done.
Qed.

Lemma forUpTo_turns (distance : Num) (body : Z → Raster → Raster) st :
  forUpTo (turns distance) distance body 0 st
  = foldl (fun st i => body i st) st (seqZ 0 (Z.of_nat (turns distance))).
Proof.
  destruct distance as [q|]; simpl; [|done].
  rewrite forUpTo_seq by lia.
  destruct (Z_le_gt_dec 0 (Qceiling q)).
  - do 2 f_equal. lia.
  - by rewrite !seqZ_nil by lia.
Qed.

Lemma forUpTo_more (distance : Num) (body : Z → Raster → Raster) k st :
  forUpTo (turns distance + k) distance body 0 st
  = forUpTo (turns distance) distance body 0 st.
Proof.
  destruct distance as [q|]; simpl.
  - rewrite !forUpTo_seq by lia. done.
  - by destruct k.
Qed.

Lemma turns_range (distance : Num) i :
  i ∈ seqZ 0 (Z.of_nat (turns distance))
  ↔ 0 <= i ∧ nlt (numZ i) distance = true.
Proof.
  rewrite elem_of_seqZ. destruct distance as [q|]; simpl.
  - rewrite Qltb_lt. split.
    + intros [H0 Hlt]. split; [done|].
      eapply Qle_lt_trans; [|apply Qceiling_lt].
      rewrite <- Zle_Qle. lia.
    + intros [H0 Hlt]. split; [done|].
      assert (i < Qceiling q); [|lia].
      rewrite Zlt_Qlt. eapply Qlt_le_trans; [exact Hlt | apply Qle_ceiling].
  - split; [lia | by intros [_ ?]].
Qed.

End LoopFacts.

Section RasteriserFacts.
Context `{Host}.
Variable palettes : gmap string (list Swatch).
Variable settings : Settings.
Variable texture : NdArray.

Lemma texel_comp d (c c' : Q) :
  (c == c')%Q → texel texture d (Some c) = texel texture d (Some c').
Proof.
  intros Heq. unfold texel. destruct (shape texture !! d) as [n|]; simpl; [|done].
  by rewrite (Qfloor_comp (c * inject_Z n) (c' * inject_Z n)) by (by rewrite Heq).
Qed.

Lemma getBlockFromUV_comp (u v u' v' : Q) :
  (u == u')%Q → (v == v')%Q →
  getBlockFromUV palettes settings texture (Some u, Some v)
  = getBlockFromUV palettes settings texture (Some u', Some v').
Proof.
  intros Hu Hv. unfold getBlockFromUV, getTextureColor. simpl.
  rewrite (texel_comp 0 u u' Hu).
  rewrite (texel_comp 1 (inject_Z 1 - v) (inject_Z 1 - v')) by (by rewrite Hv).
  done.
Qed.

Lemma buildLine_foldl (a b : Point) (uvA uvB : UV) st :
  buildLine palettes settings a b texture uvA uvB st
  = foldl (fun st i =>
             setBlock settings
               (floorPoint (lerp3D a b (ndiv (numZ i) (stepsBetween a b))))
               (getBlockFromUV palettes settings texture
                  (lerp2D uvA uvB (ndiv (numZ i) (stepsBetween a b))))
               st)
          st (seqZ 0 (Z.of_nat (turns (stepsBetween a b)))).
Proof. unfold buildLine. by rewrite forUpTo_turns. Qed.

(** A line between two points at most one block apart is one call of
    [setBlock], on the block of its first end. *)
Lemma buildLine_short (x y z x' y' z' u v u' v' : Q) st :
  (Math_hypot (x - x') (y - y') (z - z') <= 1)%Q →
  buildLine palettes settings
    (mkPoint (Some x) (Some y) (Some z)) (mkPoint (Some x') (Some y') (Some z'))
    texture (Some u, Some v) (Some u', Some v') st
  = setBlock settings (Some (Qfloor x), Some (Qfloor y), Some (Qfloor z))
      (getBlockFromUV palettes settings texture (Some u, Some v)) st.
Proof.
  intros Hd. rewrite buildLine_foldl.
  set (s := Qmax (inject_Z 1) (Math_hypot (x - x') (y - y') (z - z'))).
  assert (Hsteps :
    stepsBetween (mkPoint (Some x) (Some y) (Some z))
                 (mkPoint (Some x') (Some y') (Some z')) = Some s)
    by reflexivity.
  rewrite Hsteps.
  assert (Hs : (s == 1)%Q) by (apply Q.max_l; exact Hd).
  assert (Hturns : turns (Some s) = 1%nat).
  { unfold turns. rewrite (Qceiling_comp s 1 Hs). reflexivity. }
  rewrite Hturns. change (seqZ 0 (Z.of_nat 1)) with [0]. cbn [foldl].
  assert (Ht : (inject_Z 0 / s == 0)%Q).
  { unfold Qdiv. apply Qmult_0_l. }
  f_equal.
  - unfold floorPoint, lerp3D, lerp, ndiv, nadd, nmul, nsub, nlift2, numZ, nfloor.
    cbn [px py pz fmap option_fmap option_map].
    assert (E : ∀ p p',
      Qfloor ((inject_Z 1 - inject_Z 0 / s) * p + inject_Z 0 / s * p')%Q
      = Qfloor p)
      by (intros; apply Qfloor_comp; by apply lerp_at_0).
    rewrite !E. reflexivity.
  - unfold lerp2D, lerp, ndiv, nadd, nmul, nsub, nlift2, numZ.
    cbn [fst snd].
    apply getBlockFromUV_comp; by apply lerp_at_0.
Qed.

End RasteriserFacts.

(** C5, as the code has it: [buildLine] takes
    [steps = max(1, distance(A, B))] and, for the integers
    [0 <= i < steps] in order, calls [setBlock] on the floor, axis by
    axis, of the point interpolated at [t = i / steps], with the
    material resolved (against the default palette) from the texture at
    the interpolated UV.  [setBlock] sends one [/setblock] for a
    material other than air and cave air, and sends nothing at all, no
    clear, for those two.  A line from a point to itself (the host's
    [hypot] of the zero differences being at most 1, as it is for the
    distance 0) is one such call at the floor of the point: one
    placement, or none when the material is transparent. *)
Theorem C5_line_voxelization `{Host}
    (palettes : gmap string (list Swatch)) (settings : Settings)
    (a b : Point) (texture : NdArray) (uvA uvB : UV) (st : Raster) :
  stepsBetween a b = nmax (numZ 1) (distanceBetweenPoints a b)
  ∧ buildLine palettes settings a b texture uvA uvB st
    = foldl (fun st i =>
               setBlock settings
                 (floorPoint (lerp3D a b (ndiv (numZ i) (stepsBetween a b))))
                 (getBlockFromUV palettes settings texture
                    (lerp2D uvA uvB (ndiv (numZ i) (stepsBetween a b))))
                 st)
            st (seqZ 0 (Z.of_nat (turns (stepsBetween a b))))
  ∧ (∀ i, i ∈ seqZ 0 (Z.of_nat (turns (stepsBetween a b)))
          ↔ 0 <= i ∧ nlt (numZ i) (stepsBetween a b) = true)
  ∧ (∀ pos blk r,
       setBlock settings pos blk r
       = if String.eqb blk "air" || String.eqb blk "cave_air" then r
         else mkRaster (blocksPlaced r + 1)
                (emitted r ++ MSetblock pos blk
                   :: (if atChunkStart settings (blocksPlaced r)
                       then [MTick] else [])))
  ∧ (∀ x y z u v u' v',
       a = mkPoint (Some x) (Some y) (Some z) → b = a →
       uvA = (Some u, Some v) → uvB = (Some u', Some v') →
       (Math_hypot (x - x) (y - y) (z - z) <= 1)%Q →
       buildLine palettes settings a b texture uvA uvB st
       = setBlock settings (Some (Qfloor x), Some (Qfloor y), Some (Qfloor z))
           (getBlockFromUV palettes settings texture uvA) st).
Proof.
  split; [reflexivity|]. split; [apply buildLine_foldl|].
  split; [apply turns_range|]. split.
  - intros pos blk r. unfold setBlock.
    destruct (String.eqb blk "air" || String.eqb blk "cave_air"); [done|].
    destruct (atChunkStart settings (blocksPlaced r)); [|done].
    by rewrite <- app_assoc.
  - intros x y z u v u' v' -> -> -> -> Hd. by apply buildLine_short.
Qed.

(** C5, as the claim states it, fails: the line from the origin to the
    origin over a fully transparent texel sends nothing, neither a
    placement nor a clear; over an opaque texel it sends one
    [/setblock] (and the tick that follows the first block of a
    chunk). *)
Lemma C5_transparent_line_sends_nothing :
  buildLine (H := Example.host) Example.palettes (Example.settings 2 true)
    (Example.point 0 0 0) (Example.point 0 0 0) Example.clearTexel
    Example.uv0 Example.uv0 Example.empty
  = mkRaster 0 []
  ∧ buildLine (H := Example.host) Example.palettes (Example.settings 2 true)
      (Example.point 0 0 0) (Example.point 0 0 0) Example.opaqueTexel
      Example.uv0 Example.uv0 Example.empty
    = mkRaster 1 [MSetblock (Some 0, Some 0, Some 0) "black_concrete"; MTick].
Proof. split; vm_compute; reflexivity. Qed.

(** C7, as the code has it: [buildQuad] voxelises the triangle (A,B,C)
    and then the triangle (C,D,A); [buildModel] then draws the lines
    A-B, B-C and C-D, the consecutive corners of the face, and no line
    from D back to A. *)
Theorem C7_quad_face `{Host}
    (palettes : gmap string (list Swatch)) (settings : Settings)
    (texture : NdArray) (model : Model) (position : Point) (size : Q)
    (face uvRow : list (option Z)) (a b c d : Point)
    (i0 i1 i2 i3 : option Z) (st : Raster) :
  facePoints model position size face = Some [a; b; c; d] →
  uvRow = [i0; i1; i2; i3] →
  buildQuad palettes settings a b c d texture
    (uvOf model i0) (uvOf model i1) (uvOf model i2) (uvOf model i3) st
  = buildTriangle palettes settings c d a texture
      (uvOf model i2) (uvOf model i3) (uvOf model i0)
      (buildTriangle palettes settings a b c texture
         (uvOf model i0) (uvOf model i1) (uvOf model i2) st)
  ∧ buildFace palettes settings texture model position size face (Some uvRow) st
    = MeshDone
        (buildLine palettes settings c d texture (uvOf model i2) (uvOf model i3)
           (buildLine palettes settings b c texture (uvOf model i1) (uvOf model i2)
              (buildLine palettes settings a b texture (uvOf model i0) (uvOf model i1)
                 (buildQuad palettes settings a b c d texture
                    (uvOf model i0) (uvOf model i1) (uvOf model i2)
                    (uvOf model i3) st)))).
Proof.
  intros Hface ->. split; [reflexivity|].
  unfold buildFace. rewrite Hface. reflexivity.
Qed.

Lemma C7_quad_face_witness :
  buildQuad (H := Example.host) Example.palettes (Example.settings 2 true)
    (Example.point 0 0 0) (Example.point 0 0 0) (Example.point 0 0 0)
    (Example.point 3 0 0) Example.opaqueTexel
    (uvOf Example.quadModel (Some 0)) (uvOf Example.quadModel (Some 0))
    (uvOf Example.quadModel (Some 0)) (uvOf Example.quadModel (Some 0))
    Example.empty
  = buildTriangle (H := Example.host) Example.palettes (Example.settings 2 true)
      (Example.point 0 0 0) (Example.point 3 0 0) (Example.point 0 0 0)
      Example.opaqueTexel
      (uvOf Example.quadModel (Some 0)) (uvOf Example.quadModel (Some 0))
      (uvOf Example.quadModel (Some 0))
      (buildTriangle (H := Example.host) Example.palettes
         (Example.settings 2 true)
         (Example.point 0 0 0) (Example.point 0 0 0) (Example.point 0 0 0)
         Example.opaqueTexel
         (uvOf Example.quadModel (Some 0)) (uvOf Example.quadModel (Some 0))
         (uvOf Example.quadModel (Some 0)) Example.empty)
  ∧ buildFace (H := Example.host) Example.palettes (Example.settings 2 true)
      Example.opaqueTexel Example.quadModel (Example.point 0 0 0)
      1 [Some 0; Some 1; Some 2; Some 3] (Some [Some 0; Some 0; Some 0; Some 0])
      Example.empty
    = MeshDone
        (buildLine (H := Example.host) Example.palettes (Example.settings 2 true)
           (Example.point 0 0 0) (Example.point 3 0 0) Example.opaqueTexel
           (uvOf Example.quadModel (Some 0)) (uvOf Example.quadModel (Some 0))
           (buildLine (H := Example.host) Example.palettes (Example.settings 2 true)
              (Example.point 0 0 0) (Example.point 0 0 0) Example.opaqueTexel
              (uvOf Example.quadModel (Some 0)) (uvOf Example.quadModel (Some 0))
              (buildLine (H := Example.host) Example.palettes
                 (Example.settings 2 true)
                 (Example.point 0 0 0) (Example.point 0 0 0) Example.opaqueTexel
                 (uvOf Example.quadModel (Some 0)) (uvOf Example.quadModel (Some 0))
                 (buildQuad (H := Example.host) Example.palettes
                    (Example.settings 2 true)
                    (Example.point 0 0 0) (Example.point 0 0 0)
                    (Example.point 0 0 0) (Example.point 3 0 0)
                    Example.opaqueTexel
                    (uvOf Example.quadModel (Some 0))
                    (uvOf Example.quadModel (Some 0))
                    (uvOf Example.quadModel (Some 0))
                    (uvOf Example.quadModel (Some 0)) Example.empty)))).
Proof.
  apply (C7_quad_face (H := Example.host) Example.palettes
           (Example.settings 2 true) Example.opaqueTexel Example.quadModel
           (Example.point 0 0 0) 1
           [Some 0; Some 1; Some 2; Some 3] [Some 0; Some 0; Some 0; Some 0]
           (Example.point 0 0 0) (Example.point 0 0 0) (Example.point 0 0 0)
           (Example.point 3 0 0) (Some 0) (Some 0) (Some 0) (Some 0)
           Example.empty).
  - vm_compute. reflexivity.
  - reflexivity.
Defined.

(** C7, as the claim states it, fails: on the quad with A = B = C at the
    origin and D at (3,0,0), the line from D to A would place a block
    at (3,0,0), and the build of the quad places none there: the edge
    from D back to A is not drawn. *)
Lemma C7_closing_edge_is_not_drawn :
  sent (buildModel (H := Example.host) Example.palettes
          (Example.settings 2 true) Example.opaqueTexel Example.quadModel
          (Example.point 0 0 0) 1 false Example.empty)
  = [MSetblock (Some 0, Some 0, Some 0) "black_concrete"; MTick;
     MSetblock (Some 0, Some 0, Some 0) "black_concrete";
     MSetblock (Some 1, Some 0, Some 0) "black_concrete"; MTick;
     MSetblock (Some 2, Some 0, Some 0) "black_concrete";
     MSetblock (Some 1, Some 0, Some 0) "black_concrete"; MTick;
     MSetblock (Some 0, Some 0, Some 0) "black_concrete";
     MSetblock (Some 0, Some 0, Some 0) "black_concrete"; MTick;
     MSetblock (Some 0, Some 0, Some 0) "black_concrete";
     MSetblock (Some 1, Some 0, Some 0) "black_concrete"; MTick;
     MSetblock (Some 2, Some 0, Some 0) "black_concrete"]
  ∧ emitted (buildLine (H := Example.host) Example.palettes
               (Example.settings 2 true)
               (Example.point 3 0 0) (Example.point 0 0 0)
               Example.opaqueTexel Example.uv0 Example.uv0 Example.empty)
    = [MSetblock (Some 3, Some 0, Some 0) "black_concrete"; MTick;
       MSetblock (Some 2, Some 0, Some 0) "black_concrete";
       MSetblock (Some 1, Some 0, Some 0) "black_concrete"; MTick]
  ∧ placedAt (3, 0, 0)
      (sent (buildModel (H := Example.host) Example.palettes
               (Example.settings 2 true) Example.opaqueTexel Example.quadModel
               (Example.point 0 0 0) 1 false Example.empty))
    = false.
Proof. split; [|split]; vm_compute; reflexivity. Qed.

(** ** The mesh parser *)

(** C8, as the code has it: a vertex reference of a face without a UV
    index (no [/], or nothing after it) gets the UV index 0, which
    [buildModel] looks up like any other: the UV used for the vertex is
    the first [vt] of the mesh, and (0,0) only when the mesh has no
    [vt] at all. *)
Theorem C8_missing_uv_index_is_first_vt (part : string) (model : Model) :
  Js.split "/" part !! 1%nat = None ∨ Js.split "/" part !! 1%nat = Some "" →
  snd (parseFaceRef part) = Some 0
  ∧ uvOf model (snd (parseFaceRef part))
    = match vts model with
      | uv :: _ => uv
      | [] => (numZ 0, numZ 0)
      end.
Proof.
  intros Hno.
  assert (Huv : snd (parseFaceRef part) = Some 0).
  { unfold parseFaceRef. cbn [snd]. destruct Hno as [-> | ->]; reflexivity. }
  split; [exact Huv|]. rewrite Huv.
  unfold uvOf, at_index. simpl. by destruct (vts model).
Qed.

Lemma C8_missing_uv_index_witness :
  snd (parseFaceRef "2") = Some 0
  ∧ uvOf (parseModelData (H := Example.host) Example.triangleText)
      (snd (parseFaceRef "2"))
    = match vts (parseModelData (H := Example.host) Example.triangleText) with
      | uv :: _ => uv
      | [] => (numZ 0, numZ 0)
      end.
Proof.
  apply (C8_missing_uv_index_is_first_vt "2"
           (parseModelData (H := Example.host) Example.triangleText)).
  left. reflexivity.
Defined.

(** C8, as the claim states it, fails: the face [f 1 2 3] carries no UV
    index, the mesh defines the UV coordinate (0.5, 0.25), and that
    coordinate, not (0,0), is the UV of each of the three vertices. *)
Lemma C8_missing_uv_index_is_not_origin :
  faces (parseModelData (H := Example.host) Example.triangleText)
  = [[Some 0; Some 1; Some 2]]
  ∧ uvs (parseModelData (H := Example.host) Example.triangleText)
    = [[Some 0; Some 0; Some 0]]
  ∧ map (faceUVsOf (parseModelData (H := Example.host) Example.triangleText))
      (uvs (parseModelData (H := Example.host) Example.triangleText))
    = [[(Some (5 # 10), Some (25 # 100));
        (Some (5 # 10), Some (25 # 100));
        (Some (5 # 10), Some (25 # 100))]].
Proof. split; [|split]; vm_compute; reflexivity. Qed.

(** * Further properties *)

(** ** Palette keys *)

Lemma split_concat sep a b :
  Js.split sep (a +:+ String sep b) = Js.split sep a ++ Js.split sep b.
Proof.
  induction a as [|c a IH]; simpl.
  - by rewrite Ascii.eqb_refl.
  - change (a ++ String sep b)%string with (a +:+ String sep b).
    rewrite IH. destruct (Ascii.eqb c sep); [done|].
    pose proof (split_nonempty sep a) as Hne.
    destruct (Js.split sep a); done.
Qed.

Lemma split_pieces_lack sep s :
  Forall (fun piece => Js.lacks sep piece = true) (Js.split sep s).
Proof.
  induction s as [|c s IH]; simpl.
  - by constructor.
  - destruct (Ascii.eqb c sep) eqn:E.
    + by constructor.
    + pose proof (split_nonempty sep s) as Hne.
      destruct (Js.split sep s) as [|w ws]; [done|].
      inversion IH; subst. constructor; [|done].
      simpl. by rewrite E.
Qed.

(** Splitting at a character and joining with it gives the string
    back, and no piece holds the character. *)
Lemma split_join_round_trip (sep : ascii) (s : string) :
  Text.join (String sep "") (Js.split sep s) = s
  ∧ Forall (fun piece => Js.lacks sep piece = true) (Js.split sep s).
Proof.
  split; [|apply split_pieces_lack].
  induction s as [|c s IH]; simpl; [done|].
  destruct (Ascii.eqb_spec c sep) as [-> | Hne].
  - pose proof (split_nonempty sep s) as Hs.
    destruct (Js.split sep s) as [|w ws] eqn:E; [done|].
    simpl in *. by rewrite IH.
  - pose proof (split_nonempty sep s) as Hs.
    destruct (Js.split sep s) as [|w ws] eqn:E; [done|].
    destruct ws; simpl in *; by rewrite <- IH.
Qed.

(** A key made of two keys joined by [+] resolves to what the first
    resolves to followed by what the second resolves to, whatever names
    the two keys hold; it throws exactly when one of the two does. *)
Theorem parsePaletteString_plus
    (palettes : gmap string (list Swatch)) (key1 key2 : string) :
  Proto.parsePaletteString palettes (key1 +:+ "+" +:+ key2)
  = match Proto.parsePaletteString palettes key1,
          Proto.parsePaletteString palettes key2 with
    | Proto.Gives first, Proto.Gives second => Proto.Gives (first ++ second)
    | _, _ => Proto.TypeError
    end.
Proof.
  rewrite !Proto_parsePaletteString_spec, !parsePaletteString_flat_map.
  change (key1 +:+ "+" +:+ key2) with (key1 +:+ String "+" key2).
  rewrite split_concat, existsb_app, flat_map_app.
  by destruct (existsb _ (Js.split "+" key1)),
              (existsb _ (Js.split "+" key2)).
Qed.

(** The matcher never invents a material: its answer is ["air"] or the
    block of a swatch of one of the palettes the key names. *)
Theorem getBlockFromColor_air_or_named_swatch `{Host}
    (palettes : gmap string (list Swatch)) (settings : Settings)
    (sample : Sample) (key : string) (modeArg : Metric) :
  getBlockFromColor palettes settings sample (PaletteKey key) modeArg = "air"
  ∨ ∃ name swatches s,
      name ∈ Js.split "+" key
      ∧ palettes !! name = Some swatches
      ∧ s ∈ swatches
      ∧ getBlockFromColor palettes settings sample (PaletteKey key) modeArg
        = block s.
Proof.
  unfold getBlockFromColor.
  destruct (parsePaletteString palettes key) as [|first others] eqn:E;
    [by left|].
  destruct (sAlpha sample) as [[| |]|]; try by left.
  all: right.
  all: destruct (scan_lastNearest settings modeArg (sR sample, sG sample, sB sample)
                   first others) as (j & Hj & _).
  all: apply list_elem_of_lookup_2 in Hj.
  all: rewrite <- E, parsePaletteString_flat_map in Hj.
  all: apply list_elem_of_In, in_flat_map in Hj as (name & Hname & Hs).
  all: unfold swatchesOf in Hs.
  all: destruct (palettes !! name) as [swatches|] eqn:En; [|done].
  all: exists name, swatches, (scan settings modeArg (sR sample, sG sample, sB sample) first others).
  all: split_and!; try done; by apply list_elem_of_In.
Qed.

(** A key none of whose names is found by [palettes[name]], neither as
    a key of the table nor on [Object.prototype], resolves to no
    swatch, and the matcher answers ["air"] for every colour. *)
Theorem getBlockFromColor_unknown_key_is_air `{Host}
    (palettes : gmap string (list Swatch)) (settings : Settings)
    (sample : Sample) (key : string) (modeArg : Metric) :
  (∀ name, name ∈ Js.split "+" key →
     Proto.member palettes name = Proto.Absent) →
  Proto.parsePaletteString palettes key = Proto.Gives []
  ∧ Proto.getBlockFromColor palettes settings sample (PaletteKey key) modeArg
    = Proto.Gives "air".
Proof.
  intros Habsent.
  assert (E : Proto.parsePaletteString palettes key = Proto.Gives []).
  { rewrite Proto_parsePaletteString_spec.
    rewrite (proj2 (existsb_notIterable palettes _))
      by (intros name Hin; by rewrite (Habsent name Hin)).
    rewrite parsePaletteString_flat_map. f_equal.
    induction (Js.split "+" key) as [|n names IH]; simpl; [done|].
    rewrite IH by (intros; apply Habsent; by right).
    specialize (Habsent n ltac:(left)). unfold Proto.member in Habsent.
    unfold swatchesOf. by destruct (palettes !! n). }
  split; [done|]. unfold Proto.getBlockFromColor. by rewrite E.
Qed.

Lemma getBlockFromColor_unknown_key_witness :
  Proto.parsePaletteString Example.palettes "nope+nada" = Proto.Gives []
  ∧ Proto.getBlockFromColor (H := Example.host) Example.palettes
      (Example.settings 2 true)
      (mkSample (Some 1) (Some 2) (Some 3) (Some 255))
      (PaletteKey "nope+nada") MRGB = Proto.Gives "air".
Proof.
  apply (getBlockFromColor_unknown_key_is_air (H := Example.host)).
  intros name Hin. vm_compute in Hin.
  apply list_elem_of_In in Hin. simpl in Hin.
  destruct Hin as [<- | [<- | []]]; reflexivity.
Defined.

(** The order of the swatches matters for ties only: two sequences with
    the same swatches, in any order, give swatches at the same
    distance from the sample. *)
Theorem scan_distance_order_independent `{Host}
    (settings : Settings) (modeArg : Metric) (c : RGB)
    (first first' : Swatch) (others others' : list Swatch) :
  first :: others ≡ₚ first' :: others' →
  (distanceTo settings modeArg c (scan settings modeArg c first others)
   == distanceTo settings modeArg c (scan settings modeArg c first' others'))%Q.
Proof.
  intros Hperm.
  destruct (scan_lastNearest settings modeArg c first others) as (j & Hj & Hmin).
  destruct (scan_lastNearest settings modeArg c first' others') as (j' & Hj' & Hmin').
  apply Qle_antisym.
  - assert (Hin : scan settings modeArg c first' others' ∈ first :: others).
    { rewrite Hperm. by eapply list_elem_of_lookup_2. }
    apply list_elem_of_lookup in Hin as [i Hi]. by apply (Hmin i).
  - assert (Hin : scan settings modeArg c first others ∈ first' :: others').
    { rewrite <- Hperm. by eapply list_elem_of_lookup_2. }
    apply list_elem_of_lookup in Hin as [i Hi]. by apply (Hmin' i).
Qed.

Lemma scan_distance_order_independent_witness :
  Qeq (distanceTo (H := Example.host) (Example.settings 2 true) MRGB
         (Some 200, Some 200, Some 200)
         (scan (H := Example.host) (Example.settings 2 true) MRGB
            (Some 200, Some 200, Some 200)
            Example.white [Example.black; Example.clay]))
      (distanceTo (H := Example.host) (Example.settings 2 true) MRGB
         (Some 200, Some 200, Some 200)
         (scan (H := Example.host) (Example.settings 2 true) MRGB
            (Some 200, Some 200, Some 200)
            Example.clay [Example.white; Example.black])).
Proof.
  apply (scan_distance_order_independent (H := Example.host)).
  apply Permutation_sym.
  change (Example.clay :: [Example.white; Example.black])
    with ([Example.clay] ++ [Example.white; Example.black]).
  change (Example.white :: [Example.black; Example.clay])
    with ([Example.white; Example.black] ++ [Example.clay]).
  apply Permutation_app_comm.
Defined.

(** [resolvePaletteArgument] accepts an argument exactly when, once
    trimmed, it is not empty and each of its names is found by
    [palettes[name]]: as a key of the table, or as a property inherited
    from [Object.prototype] (which is no palette, and makes
    [parsePaletteString] throw later).  What it returns is the trimmed
    text. *)
Theorem resolvePaletteArgument_accepts_iff
    (palettes : gmap string (list Swatch)) (arg text : string) :
  resolvePaletteArgument palettes (Some arg) = inr text
  ↔ text = Parse.trim arg
    ∧ text ≠ ""
    ∧ arg ≠ ""
    ∧ Forall (fun name =>
                is_Some (palettes !! name) ∨ Proto.inherited name = true)
        (Js.split "+" text).
Proof.
  assert (Hfound : ∀ name,
    Proto.isAbsent (Proto.member palettes name) = true
    ↔ ¬ (is_Some (palettes !! name) ∨ Proto.inherited name = true)).
  { intros name. unfold Proto.member.
    destruct (palettes !! name) as [swatches|]; simpl.
    - split; [done|]. intros Hno. destruct Hno. left. by eexists.
    - destruct (Proto.inherited name); simpl.
      + split; [done|]. intros Hno. destruct Hno. by right.
      + split; [|done]. intros _ [[? ?] | ?]; done. }
  unfold resolvePaletteArgument.
  destruct (String.eqb_spec arg "") as [-> | Harg].
  { split; [done | by intros (_ & _ & ? & _)]. }
  destruct (String.eqb_spec (Parse.trim arg) "") as [Ht | Ht].
  { split; [done|]. intros (-> & ? & _). done. }
  set (parts := Js.split "+" (Parse.trim arg)).
  destruct (filter _ parts) as [|m missing] eqn:Ef.
  - split.
    + intros [= <-]. split_and!; try done.
      apply Forall_forall. intros name Hin.
      destruct (Proto.isAbsent (Proto.member palettes name)) eqn:Ea.
      * assert (Hm : name ∈ filter
                  (fun part => Proto.isAbsent (Proto.member palettes part) = true)
                  parts) by (by apply list_elem_of_filter).
        rewrite Ef in Hm. by apply elem_of_nil in Hm.
      * destruct (decide (is_Some (palettes !! name)
                          ∨ Proto.inherited name = true)) as [? | Hno];
          [done|].
        apply Hfound in Hno. congruence.
    + intros (-> & _ & _ & _). done.
  - split; [done|]. intros (-> & _ & _ & Hall).
    assert (Hm : m ∈ filter
              (fun part => Proto.isAbsent (Proto.member palettes part) = true)
              parts) by (rewrite Ef; left).
    apply list_elem_of_filter in Hm as [Habs Hin].
    rewrite Forall_forall in Hall. apply Hfound in Habs.
    destruct Habs. by apply Hall.
Qed.

(** ** The scan visits every cell once *)

Section VisitOrderCovers.
Variables width height c : Z.
Hypothesis c_pos : 1 <= c.
Hypothesis height_nonneg : 0 <= height.









End VisitOrderCovers.

(** ** Builds: the whole grid, prefixes, and chunk sizes below one *)

Section BuildFacts.
Context `{Host}.
Variable palettes : gmap string (list Swatch).
Variable settings : Settings.
Variable env : Env.
Variable texture : NdArray.
Variable palette : PaletteArg.
Variable targetStart : Vec3.
Variables width height : Z.
Variable gif : bool.
Variable frame : Z.



(** With a chunk size below one the innermost loop has no turn, so no
    cell is processed and the flag is never read. *)
Lemma chunkRow_no_turn fuel x z w :
  chunkSize settings <= 0 →
  chunkRow palettes settings env texture palette targetStart
    width height gif frame fuel x z 0 w = Starved
  ∨ chunkRow palettes settings env texture palette targetStart
      width height gif frame fuel x z 0 w = Done false w.
Proof.
  intros Hc. destruct fuel; simpl; [by left|]. right.
  replace (0 <? chunkSize settings) with false
    by (symmetry; apply Z.ltb_ge; lia).
  done.
Qed.

Lemma sweep_no_turn fuel x z zDirection w :
  chunkSize settings <= 0 →
  (∀ n, rejects (env n) = false) →
  sweep palettes settings env texture palette targetStart
    width height gif frame fuel x z zDirection w = Starved
  ∨ ∃ z' w',
      sweep palettes settings env texture palette targetStart
        width height gif frame fuel x z zDirection w = Done (false, z') w'.
Proof.
  intros Hc Hrej. revert z w. induction fuel as [|fuel IH]; intros z w.
  - by left.
  - simpl. destruct ((0 <=? z) && (z <? height)); [|right; by eexists _, _].
    destruct (chunkRow_no_turn fuel x z w Hc) as [-> | ->]; [by left|].
    simpl. unfold await. rewrite Hrej.
    destruct (stopTyped (env (clock w))); simpl; apply IH.
Qed.

Lemma chunks_no_turn fuel x z zDirection w :
  chunkSize settings <= 0 →
  (∀ n, rejects (env n) = false) →
  x < width →
  chunks palettes settings env texture palette targetStart
    width height gif frame fuel x z zDirection w = Starved.
Proof.
  intros Hc Hrej. revert x z zDirection w.
  induction fuel as [|fuel IH]; intros x z zDirection w Hx; [done|].
  simpl. rewrite (proj2 (Z.ltb_lt x width) Hx).
  destruct (sweep_no_turn fuel x z zDirection w Hc Hrej)
    as [-> | (z' & w' & ->)]; [done|].
  simpl. apply IH. lia.
Qed.

(** The loops of a build leave [bot.task] alone. *)
Lemma chunkRow_botTask fuel x z xx w :
  ∀ w', endWorld (chunkRow palettes settings env texture palette targetStart
                    width height gif frame fuel x z xx w) = Some w' →
        botTask w' = botTask w.
Proof.
  revert xx w. induction fuel as [|fuel IH]; intros xx w w'; [done|].
  simpl. destruct ((xx <? chunkSize settings) && (x + xx <? width));
    [|by intros [= <-]].
  destruct (cancelRequested (printData w)); [by intros [= <-]|].
  unfold processCell, call, await.
  set (block := getBlock _ _ _ _ _ _ _ _).
  destruct (commands settings), (negb (block =? "")%string),
    (rejects (env (clock w))), (stopTyped (env (clock w))); simpl;
    try (by intros [= <-]); intros Hw'; by rewrite (IH _ _ _ Hw').
Qed.

Lemma sweep_botTask fuel x z zDirection w :
  ∀ w', endWorld (sweep palettes settings env texture palette targetStart
                    width height gif frame fuel x z zDirection w) = Some w' →
        botTask w' = botTask w.
Proof.
  revert z w. induction fuel as [|fuel IH]; intros z w w'; [done|].
  simpl. destruct ((0 <=? z) && (z <? height)); [|by intros [= <-]].
  pose proof (chunkRow_botTask fuel x z 0 w) as Hrow.
  destruct (chunkRow _ _ _ _ _ _ _ _ _ _ fuel x z 0 w) as [c w1 | w1 |];
    simpl; [| by intros [= <-]; apply Hrow | done].
  rewrite <- (Hrow w1 eq_refl).
  destruct c; simpl; [by intros [= <-]|].
  unfold await at 1.
  destruct (rejects (env (clock w1))), (stopTyped (env (clock w1))); simpl;
    try (by intros [= <-]); intros Hw'; by rewrite (IH _ _ _ Hw').
Qed.

Lemma chunks_botTask fuel x z zDirection w :
  ∀ w', endWorld (chunks palettes settings env texture palette targetStart
                    width height gif frame fuel x z zDirection w) = Some w' →
        botTask w' = botTask w.
Proof.
  revert x z zDirection w.
  induction fuel as [|fuel IH]; intros x z zDirection w w'; [done|].
  simpl. destruct (x <? width); [|by intros [= <-]].
  pose proof (sweep_botTask fuel x z zDirection w) as Hsweep.
  destruct (sweep _ _ _ _ _ _ _ _ _ _ fuel x z zDirection w)
    as [[c z1] w1 | w1 |]; simpl; [| by intros [= <-]; apply Hsweep | done].
  rewrite <- (Hsweep w1 eq_refl).
  destruct c; simpl; [by intros [= <-]|]. apply IH.
Qed.

Lemma removeTask_pushTask taskName tasks :
  removeTask taskName (pushTask taskName tasks) = tasks.
Proof.
  unfold removeTask, pushTask. rewrite rev_app_distr. simpl.
  rewrite String.eqb_refl. apply rev_involutive.
Qed.

Lemma runBuild_botTask taskName label meta fuel botSpawned w outcome w' :
  runBuild palettes settings env texture palette targetStart
    width height gif frame taskName label meta fuel botSpawned w
  = Some (outcome, w') →
  botTask w' = botTask w.
Proof.
  unfold runBuild, buildBody. destruct botSpawned; simpl; [|by intros [= _ <-]].
  pose proof (chunks_botTask fuel 0 0 1
                (buildStart width height taskName label meta w)) as Hb.
  destruct (chunks _ _ _ _ _ _ _ _ _ _ fuel 0 0 1 _) as [c w1 | w1 |];
    [| | done]; intros [= _ <-]; simpl;
    rewrite (Hb w1 eq_refl); simpl; apply removeTask_pushTask.
Qed.



End BuildFacts.





(** ** Cancellation *)




(** With a chunk size below one and a grid at least one column wide,
    [buildImage] and [buildGif] never end, whatever fuel they are
    given, as long as no call fails: the outer loop does not advance,
    no cell is processed, and the cancellation flag, read only before a
    cell, is never read, so that [stop] does not end them either. *)
Theorem build_with_chunk_below_one_never_ends `{Host}
    (palettes : gmap string (list Swatch)) (settings : Settings) (env : Env)
    (texture : NdArray) (palette : PaletteArg) (startPosition : Vec3)
    (size : Z * Z) (frame : Z) (options : BuildOptions) (w : World)
    (fuel : nat) :
  chunkSize settings <= 0 →
  0 < fst size →
  (∀ n, rejects (env n) = false) →
  buildImage palettes settings env fuel true texture palette startPosition
    size options w = None
  ∧ buildGif palettes settings env fuel true texture palette startPosition
      size frame options w = None.
Proof.
  intros Hc Hw Hrej.
  unfold buildImage, buildGif, runBuild, buildBody. simpl.
  rewrite !chunks_no_turn by done. done.
Qed.

Lemma build_with_chunk_below_one_witness :
  buildImage (H := Example.host) Example.palettes
    (Example.settings 0 false) (Example.stopAt 1) 1000 true Example.checker
    (PaletteKey "concrete") Example.origin (4, 3) Example.noOptions
    Example.fresh = None
  ∧ buildGif (H := Example.host) Example.palettes
      (Example.settings 0 false) (Example.stopAt 1) 1000 true Example.checker
      (PaletteKey "concrete") Example.origin (4, 3) 0 Example.noOptions
      Example.fresh = None.
Proof.
  apply (build_with_chunk_below_one_never_ends (H := Example.host)).
  - simpl. lia.
  - simpl. lia.
  - intros n. reflexivity.
Defined.

(** A build that ends, however it ends, leaves [bot.task] as it found
    it: the task it pushed is removed on every way out. *)
Theorem build_restores_task_list `{Host}
    (palettes : gmap string (list Swatch)) (settings : Settings) (env : Env)
    (texture : NdArray) (palette : PaletteArg) (startPosition : Vec3)
    (size : Z * Z) (frame : Z) (options : BuildOptions)
    (fuel : nat) (botSpawned : bool) (w w' : World) (outcome : Outcome) :
  buildImage palettes settings env fuel botSpawned texture palette
    startPosition size options w = Some (outcome, w')
  ∨ buildGif palettes settings env fuel botSpawned texture palette
      startPosition size frame options w = Some (outcome, w') →
  botTask w' = botTask w.
Proof.
  intros [Hrun | Hrun]; by eapply runBuild_botTask.
Qed.

Lemma build_restores_task_list_witness :
  ∃ w',
    buildImage (H := Example.host) Example.palettes
      (Example.settings 2 false) Example.failsAt3 12 true Example.checker
      (PaletteKey "concrete") Example.origin (4, 3) Example.noOptions
      (mkWorld Example.idle ["draw"; "pathfind"] 0 []) = Some (Threw, w')
    ∧ botTask w' = ["draw"; "pathfind"].
Proof.
  eexists. split.
  - vm_compute. reflexivity.
  - eapply (build_restores_task_list (H := Example.host)
              Example.palettes (Example.settings 2 false) Example.failsAt3
              Example.checker (PaletteKey "concrete") Example.origin (4, 3) 0
              Example.noOptions 12 true
              (mkWorld Example.idle ["draw"; "pathfind"] 0 []) _ Threw).
    left. vm_compute. reflexivity.
Defined.

(** ** The progress bar *)

Lemma clamp_bounds (p : Q) : (0 <= Qmax 0 (Qmin 1 p) <= 1)%Q.
Proof.
  split; [apply Q.le_max_l|].
  apply Q.max_lub; [done | apply Q.le_min_l].
Qed.

(** Whatever counts it is given, a zero or negative total included,
    [updatePrintProgress] leaves a progress between 0 and 1 and a bar
    of 0 to 20 filled segments; and [finishPrintTask] leaves the bar
    full after a job with blocks that was not cancelled, and empty
    otherwise. *)
Theorem progress_stays_in_range (completed total : Z) (cancelled : bool)
    (pd : PrintData) :
  (0 <= progress (updatePrintProgress completed total pd) <= 1)%Q
  ∧ 0 <= bar (updatePrintProgress completed total pd) <= PROGRESS_SEGMENTS
  ∧ (0 <= progress (finishPrintTask cancelled pd) <= 1)%Q
  ∧ bar (finishPrintTask cancelled pd)
    = if negb cancelled && (0 <? totalBlocks pd) then PROGRESS_SEGMENTS else 0.
Proof.
  split; [apply clamp_bounds|].
  split; [unfold updatePrintProgress, updateProgressBar, createBar, PROGRESS_SEGMENTS; simpl; lia|].
  unfold finishPrintTask.
  destruct (negb cancelled && (0 <? totalBlocks pd)) eqn:E.
  - split; [apply clamp_bounds|].
    apply andb_true_iff in E as [_ Ht%Z.ltb_lt].
    unfold updatePrintProgress, updateProgressBar, createBar. cbn [bar].
    rewrite (proj2 (Z.ltb_lt 0 (totalBlocks pd)) Ht).
    set (t := inject_Z (totalBlocks pd)).
    assert (Hq : (Qmax 0 (Qmin 1 (t / t)) == 1)%Q).
    { assert (Htt : (t / t == 1)%Q).
      { unfold Qdiv. apply Qmult_inv_r. unfold t, Qeq. simpl. lia. }
      rewrite Htt. reflexivity. }
    unfold Qround.
    rewrite (Qfloor_comp _ ((1 * inject_Z PROGRESS_SEGMENTS) + (1 # 2))%Q)
      by (by rewrite Hq).
    reflexivity.
  - split; [apply clamp_bounds|]. reflexivity.
Qed.

(** ** Reading pixels *)

Lemma floor_scaled_range (n : Z) (x : Q) :
  0 < n → (0 <= x)%Q → (x < 1)%Q →
  0 <= Qfloor (inject_Z n * x) < n.
Proof.
  intros Hn H0 H1. split.
  - rewrite <- (Qfloor_Z 0). apply Qfloor_resp_le.
    apply Qmult_le_0_compat; [|done].
    change 0%Q with (inject_Z 0). rewrite <- Zle_Qle. lia.
  - rewrite Zlt_Qlt. eapply Qle_lt_trans; [apply Qfloor_le|].
    rewrite <- (Qmult_1_r (inject_Z n)) at 2.
    apply Qmult_lt_l; [|done].
    change 0%Q with (inject_Z 0). rewrite <- Zlt_Qlt. lia.
Qed.

Lemma nd_get_packed image w h c i j ch :
  Packed image w h c →
  0 <= i < w → 0 <= j < h → 0 <= ch < c →
  nd_get image [Some i; Some j; Some ch]
  = data image !! Z.to_nat (c * i + c * w * j + ch)
  ∧ is_Some (data image !! Z.to_nat (c * i + c * w * j + ch)).
Proof.
  intros [Hshape Hstride Hoff Hdata Hsize] Hi Hj Hch.
  unfold nd_get. rewrite Hstride, Hoff. simpl.
  assert (Hcw : 0 <= c * w) by (apply Z.mul_nonneg_nonneg; lia).
  assert (Hi1 : c * i <= c * (w - 1)) by (apply Z.mul_le_mono_nonneg_l; lia).
  assert (Hi0 : 0 <= c * i) by (apply Z.mul_nonneg_nonneg; lia).
  assert (Hj1 : c * w * j <= c * w * (h - 1))
    by (apply Z.mul_le_mono_nonneg_l; lia).
  assert (Hj0 : 0 <= c * w * j) by (apply Z.mul_nonneg_nonneg; lia).
  assert (Hsum : w * h * c = c * w * (h - 1) + c * (w - 1) + c) by ring.
  assert (Hp : 0 <= c * i + c * w * j + ch < w * h * c) by lia.
  replace (0 + (c * i + (c * w * j + (1 * ch + 0))))
    with (c * i + c * w * j + ch) by lia.
  destruct (c * i + c * w * j + ch <? 0) eqn:E; [apply Z.ltb_lt in E; lia|].
  split; [done|]. apply lookup_lt_is_Some. lia.
Qed.

(** On a well-formed still image with four channels, [getBlock] at
    coordinates in [[0, 1)] reads the pixel
    [(floor(u * width), floor(v * height))], which lies inside the
    image: the four channels it hands to the matcher are the four bytes
    of that pixel, all defined. *)
Theorem getBlock_reads_inside_image (image : NdArray) (w h : Z) (x z : Q)
    (t : Z) :
  Packed image w h 4 →
  (0 <= x)%Q → (x < 1)%Q → (0 <= z)%Q → (z < 1)%Q →
  let px := Qfloor (inject_Z w * x) in
  let pz := Qfloor (inject_Z h * z) in
  0 <= px < w ∧ 0 <= pz < h
  ∧ ∃ r g b a,
      getBlockSample image x z false t
      = mkSample (Some r) (Some g) (Some b) (Some a)
      ∧ data image !! Z.to_nat (4 * px + 4 * w * pz) = Some r
      ∧ data image !! Z.to_nat (4 * px + 4 * w * pz + 1) = Some g
      ∧ data image !! Z.to_nat (4 * px + 4 * w * pz + 2) = Some b
      ∧ data image !! Z.to_nat (4 * px + 4 * w * pz + 3) = Some a.
Proof.
  intros Hpacked Hx0 Hx1 Hz0 Hz1 px pz.
  pose proof (packed_size _ _ _ _ Hpacked) as (Hw & Hh & _).
  pose proof (floor_scaled_range w x Hw Hx0 Hx1) as Hpx.
  pose proof (floor_scaled_range h z Hh Hz0 Hz1) as Hpz.
  fold px in Hpx. fold pz in Hpz.
  split; [done|]. split; [done|].
  unfold getBlockSample, pixelIndex. simpl negb. cbv iota.
  rewrite (packed_shape _ _ _ _ Hpacked). simpl lookup. cbn [fmap option_fmap option_map].
  fold px pz.
  destruct (nd_get_packed image w h 4 px pz 0 Hpacked) as [E0 [r Hr]]; [lia..|].
  destruct (nd_get_packed image w h 4 px pz 1 Hpacked) as [E1 [g Hg]]; [lia..|].
  destruct (nd_get_packed image w h 4 px pz 2 Hpacked) as [E2 [b Hb]]; [lia..|].
  destruct (nd_get_packed image w h 4 px pz 3 Hpacked) as [E3 [a Ha]]; [lia..|].
  rewrite E0, E1, E2, E3, Hr, Hg, Hb, Ha. simpl.
  exists r, g, b, a. rewrite Z.add_0_r in Hr. done.
Qed.

Lemma getBlock_reads_inside_image_witness :
  0 <= Qfloor (inject_Z 2 * (1 # 2)) < 2
  ∧ 0 <= Qfloor (inject_Z 2 * 0) < 2
  ∧ ∃ r g b a,
      getBlockSample Example.checker (1 # 2) 0 false 1
      = mkSample (Some r) (Some g) (Some b) (Some a)
      ∧ data Example.checker
          !! Z.to_nat (4 * Qfloor (inject_Z 2 * (1 # 2))
                       + 4 * 2 * Qfloor (inject_Z 2 * 0)) = Some r
      ∧ data Example.checker
          !! Z.to_nat (4 * Qfloor (inject_Z 2 * (1 # 2))
                       + 4 * 2 * Qfloor (inject_Z 2 * 0) + 1) = Some g
      ∧ data Example.checker
          !! Z.to_nat (4 * Qfloor (inject_Z 2 * (1 # 2))
                       + 4 * 2 * Qfloor (inject_Z 2 * 0) + 2) = Some b
      ∧ data Example.checker
          !! Z.to_nat (4 * Qfloor (inject_Z 2 * (1 # 2))
                       + 4 * 2 * Qfloor (inject_Z 2 * 0) + 3) = Some a.
Proof.
  apply (getBlock_reads_inside_image Example.checker 2 2 (1 # 2) 0 1).
  - constructor; try reflexivity. lia.
  - done.
  - done.
  - done.
  - done.
Defined.



(** Whatever numbers the UV holds, below 0 or above 1 as well,
    [getTextureColor] reads a texel inside a well-formed texture with
    at least three channels: the three colour channels it returns are
    defined, and so is alpha, the fourth channel of the texel when
    there is one and 255 otherwise. *)
Theorem getTextureColor_reads_inside_texture (texture : NdArray)
    (w h c : Z) (u v : Q) :
  Packed texture w h c →
  3 <= c →
  ∃ r g b a,
    getTextureColor texture (Some u, Some v)
    = mkSample (Some r) (Some g) (Some b) (Some a)
    ∧ (c <= 3 → a = 255).
Proof.
  intros Hpacked Hc.
  pose proof (packed_size _ _ _ _ Hpacked) as (Hw & Hh & _).
  unfold getTextureColor, texel, nmul, nsub, nlift2, numZ, nfloor.
  rewrite (packed_shape _ _ _ _ Hpacked). simpl lookup.
  cbn [fst snd mbind option_bind fmap option_fmap option_map].
  set (x := Z.min (w - 1) (Z.max 0 (Qfloor (u * inject_Z w)))).
  set (y := Z.min (h - 1) (Z.max 0 (Qfloor ((inject_Z 1 - v) * inject_Z h)))).
  assert (Hx : 0 <= x < w) by (unfold x; lia).
  assert (Hy : 0 <= y < h) by (unfold y; lia).
  destruct (nd_get_packed texture w h c x y 0 Hpacked) as [E0 [r Hr]]; [lia..|].
  destruct (nd_get_packed texture w h c x y 1 Hpacked) as [E1 [g Hg]]; [lia..|].
  destruct (nd_get_packed texture w h c x y 2 Hpacked) as [E2 [b Hb]]; [lia..|].
  rewrite E0, E1, E2, Hr, Hg, Hb.
  destruct (3 <? c) eqn:E.
  - apply Z.ltb_lt in E.
    destruct (nd_get_packed texture w h c x y 3 Hpacked) as [E3 [a Ha]]; [lia..|].
    rewrite E3, Ha. exists r, g, b, a. split; [done | lia].
  - exists r, g, b, 255. done.
Qed.

Lemma getTextureColor_reads_inside_texture_witness :
  ∃ r g b a,
    getTextureColor Example.rgbPair (Some (7 # 2), Some (-3 # 1))
    = mkSample (Some r) (Some g) (Some b) (Some a)
    ∧ (3 <= 3 → a = 255).
Proof.
  apply (getTextureColor_reads_inside_texture Example.rgbPair 2 1 3).
  - constructor; try reflexivity. lia.
  - lia.
Defined.

(** ** What a mesh build sends *)

Section MeshSends.
Context `{Host}.
Variable palettes : gmap string (list Swatch).
Variable settings : Settings.
Variable texture : NdArray.

Lemma Extends_refl st : Extends settings st st.
Proof.
  exists []. simpl. rewrite app_nil_r. split_and!; [done | lia |].
  intros k p b ticked Hk. by rewrite lookup_nil in Hk.
Qed.

Lemma Extends_trans st1 st2 st3 :
  Extends settings st1 st2 → Extends settings st2 st3 →
  Extends settings st1 st3.
Proof.
  intros (m1 & E1 & C1 & F1) (m2 & E2 & C2 & F2). exists (m1 ++ m2).
  split_and!.
  - by rewrite E2, E1, flat_map_app, app_assoc.
  - rewrite length_app. lia.
  - intros k p b ticked Hk. apply lookup_app_Some in Hk as [Hk | [Hlen Hk]].
    + exact (F1 _ _ _ _ Hk).
    + apply F2 in Hk as (? & ? & ->). split_and!; [done..|].
      apply (f_equal (atChunkStart settings)).
      rewrite C1, Nat2Z.inj_sub by done. unfold Placement. lia.
Qed.

Lemma setBlock_Extends p b st : Extends settings st (setBlock settings p b st).
Proof.
  unfold setBlock.
  destruct (String.eqb b "air" || String.eqb b "cave_air") eqn:E.
  - apply Extends_refl.
  - apply orb_false_elim in E as [E1 E2].
    apply String.eqb_neq in E1, E2.
    exists [(p, b, atChunkStart settings (blocksPlaced st))].
    split_and!.
    + simpl. destruct (atChunkStart settings (blocksPlaced st)); simpl;
        by rewrite <- ?app_assoc.
    + simpl. lia.
    + intros [|k] p' b' ticked Hk; simplify_eq/=.
      split_and!; [done..|]. apply (f_equal (atChunkStart settings)). lia.
Qed.

Lemma forUpTo_Extends (body : Z → Raster → Raster) distance :
  (∀ i st, Extends settings st (body i st)) →
  ∀ n i st, Extends settings st (forUpTo n distance body i st).
Proof.
  intros Hbody. induction n as [|n IH]; intros i st; cbn [forUpTo].
  - apply Extends_refl.
  - destruct (nlt (numZ i) distance); [|apply Extends_refl].
    eapply Extends_trans; [apply Hbody | apply IH].
Qed.

Lemma buildLine_Extends a b uvA uvB st :
  Extends settings st (buildLine palettes settings a b texture uvA uvB st).
Proof.
  unfold buildLine. apply forUpTo_Extends.
  intros i st'. apply setBlock_Extends.
Qed.

Lemma buildTriangle_Extends a b c uvA uvB uvC st :
  Extends settings st
    (buildTriangle palettes settings a b c texture uvA uvB uvC st).
Proof.
  unfold buildTriangle. apply forUpTo_Extends.
  intros i st'. apply buildLine_Extends.
Qed.

Lemma buildQuad_Extends a b c d uv0 uv1 uv2 uv3 st :
  Extends settings st
    (buildQuad palettes settings a b c d texture uv0 uv1 uv2 uv3 st).
Proof.
  unfold buildQuad.
  eapply Extends_trans; apply buildTriangle_Extends.
Qed.

Lemma edgeLines_Extends face faceUVs st :
  Extends settings st
    (meshState (edgeLines palettes settings texture face faceUVs st)).
Proof.
  revert faceUVs st. induction face as [|a face IH]; intros faceUVs st.
  - apply Extends_refl.
  - destruct face as [|b face]; [apply Extends_refl|].
    destruct faceUVs as [|uvA [|uvB faceUVs]]; try apply Extends_refl.
    change (edgeLines palettes settings texture (a :: b :: face)
              (uvA :: uvB :: faceUVs) st)
      with (edgeLines palettes settings texture (b :: face) (uvB :: faceUVs)
              (buildLine palettes settings a b texture uvA uvB st)).
    eapply Extends_trans; [apply buildLine_Extends | apply IH].
Qed.

Lemma faceFill_Extends face faceUVs st :
  Extends settings st
    (meshState (faceFill palettes settings texture face faceUVs st)).
Proof.
  unfold faceFill.
  repeat case_match; simpl;
    first [apply Extends_refl | apply buildTriangle_Extends
          | apply buildQuad_Extends].
Qed.

Section OneModel.
Variable model : Model.
Variable position : Point.
Variable size : Q.

Lemma buildFace_Extends face uvRow st :
  Extends settings st
    (meshState
       (buildFace palettes settings texture model position size face uvRow st)).
Proof.
  unfold buildFace.
  destruct (facePoints model position size face) as [pts|];
    [|apply Extends_refl].
  destruct uvRow as [uvRow|]; [|apply Extends_refl].
  pose proof (faceFill_Extends pts (faceUVsOf model uvRow) st) as Hfill.
  destruct (faceFill palettes settings texture pts (faceUVsOf model uvRow) st)
    as [st'|st']; simpl in Hfill; [|done].
  eapply Extends_trans; [exact Hfill | apply edgeLines_Extends].
Qed.

Lemma buildFaces_Extends fs : ∀ index st,
  Extends settings st
    (meshState
       (buildFaces palettes settings texture model position size index fs st)).
Proof.
  induction fs as [|face fs IH]; intros index st; simpl.
  - apply Extends_refl.
  - pose proof (buildFace_Extends face (uvs model !! index) st) as Hface.
    destruct (buildFace palettes settings texture model position size face
                (uvs model !! index) st) as [st'|st']; simpl in Hface; [|done].
    eapply Extends_trans; [exact Hface | apply IH].
Qed.

End OneModel.

End MeshSends.

(** Whatever the mesh, the texture and the state it starts in, a faces
    build only adds to what was sent: each placement is a [/setblock]
    of a block other than air and cave air, followed by a tick exactly
    when the counter stood at a multiple of the chunk size, and the
    counter [blocksPlaced] grows by the number of placements.  This
    holds as well for a build that stops at a missing vertex. *)
Theorem buildModel_sends_counted_solid_blocks `{Host}
    (palettes : gmap string (list Swatch)) (settings : Settings)
    (texture : NdArray) (model : Model) (position : Point) (size : Q)
    (st : Raster) :
  Extends settings st
    (meshState
       (buildModel palettes settings texture model position size false st)).
Proof. unfold buildModel. apply buildFaces_Extends. Qed.

(** ** Parsed meshes *)

Section ParsedMesh.
Context `{Host}.

Lemma parseRow_rows (m : Model) (row : string) :
  (faces (parseRow m row) = faces m ∧ uvs (parseRow m row) = uvs m)
  ∨ ∃ refs,
      faces (parseRow m row) = faces m ++ [map fst (map parseFaceRef refs)]
      ∧ uvs (parseRow m row) = uvs m ++ [map snd (map parseFaceRef refs)].
Proof. unfold parseRow. repeat case_match; simpl; eauto. Qed.

Lemma parseRow_parallel (m : Model) (row : string) :
  Forall2 (fun face uvRow => length face = length uvRow) (faces m) (uvs m) →
  Forall2 (fun face uvRow => length face = length uvRow)
    (faces (parseRow m row)) (uvs (parseRow m row)).
Proof.
  intros Hm. destruct (parseRow_rows m row) as [[-> ->] | (refs & -> & ->)];
    [done|].
  apply Forall2_app; [done|]. constructor; [|constructor].
  by rewrite !length_map.
Qed.

Lemma parseModelData_parallel (data : string) :
  Forall2 (fun face uvRow => length face = length uvRow)
    (faces (parseModelData data)) (uvs (parseModelData data)).
Proof.
  unfold parseModelData.
  generalize (filter (fun row => row ≠ "")
                (map Parse.trim (Js.split "010" data))).
  intros rows.
  assert (Hinit : Forall2 (fun face uvRow : list (option Z) =>
                             length face = length uvRow)
                    (faces (mkModel 1 [] [] [] []))
                    (uvs (mkModel 1 [] [] [] []))) by constructor.
  revert Hinit. generalize (mkModel 1 [] [] [] []).
  induction rows as [|row rows IH]; intros m Hm; simpl; [done|].
  apply IH. by apply parseRow_parallel.
Qed.

Variable palettes : gmap string (list Swatch).
Variable settings : Settings.
Variable texture : NdArray.

Lemma faceFill_done (pts : list Point) (faceUVs : list UV) st :
  length pts = length faceUVs →
  ∃ st', faceFill palettes settings texture pts faceUVs st = MeshDone st'.
Proof.
  unfold faceFill.
  destruct pts as [|a [|b [|c [|d [|e pts]]]]];
    destruct faceUVs as [|u0 [|u1 [|u2 [|u3 [|u4 faceUVs]]]]];
    intros Hlen; try discriminate Hlen; eauto.
Qed.

Lemma edgeLines_done (pts : list Point) : ∀ (faceUVs : list UV) st,
  length pts = length faceUVs →
  ∃ st', edgeLines palettes settings texture pts faceUVs st = MeshDone st'.
Proof.
  induction pts as [|a pts IH]; intros faceUVs st Hlen; [by eexists|].
  destruct pts as [|b pts]; [by eexists|].
  destruct faceUVs as [|uvA [|uvB faceUVs]]; try discriminate Hlen.
  change (edgeLines palettes settings texture (a :: b :: pts)
            (uvA :: uvB :: faceUVs) st)
    with (edgeLines palettes settings texture (b :: pts) (uvB :: faceUVs)
            (buildLine palettes settings a b texture uvA uvB st)).
  apply IH. simpl in *. lia.
Qed.

Variable model : Model.
Variable position : Point.
Variable size : Q.

Lemma facePoints_is_Some (face : list (option Z)) :
  is_Some (facePoints model position size face) ↔ faceInRange model face.
Proof.
  unfold facePoints, faceInRange. rewrite mapM_is_Some.
  apply Forall_iff. intros i. simpl. apply fmap_is_Some.
Qed.

Lemma buildFace_done_iff (face uvRow : list (option Z)) st :
  length face = length uvRow →
  (∃ st', buildFace palettes settings texture model position size
            face (Some uvRow) st = MeshDone st')
  ↔ faceInRange model face.
Proof.
  intros Hlen. rewrite <- facePoints_is_Some. unfold buildFace.
  destruct (facePoints model position size face) as [pts|] eqn:Epts.
  - split; [by eexists|]. intros _.
    assert (Hpts : length pts = length (faceUVsOf model uvRow)).
    { unfold faceUVsOf. rewrite length_map, <- Hlen. symmetry.
      eapply length_mapM. exact Epts. }
    destruct (faceFill_done pts (faceUVsOf model uvRow) st Hpts) as [st1 ->].
    by apply edgeLines_done.
  - split; [by intros [st' ?] | by intros [pts ?]].
Qed.

Lemma buildFaces_done_iff (fs : list (list (option Z))) :
  ∀ (us : list (list (option Z))) index st,
    drop index (uvs model) = us →
    Forall2 (fun face uvRow => length face = length uvRow) fs us →
    (∃ st', buildFaces palettes settings texture model position size
              index fs st = MeshDone st')
    ↔ Forall (faceInRange model) fs.
Proof.
  induction fs as [|face fs IH]; intros us index st Hdrop Hpar.
  - simpl. split; [by constructor | by eexists].
  - destruct us as [|u us]; [by inversion Hpar|].
    apply Forall2_cons in Hpar as [Hlen Hpar].
    assert (Hu : uvs model !! index = Some u).
    { rewrite <- (Nat.add_0_r index), <- lookup_drop, Hdrop. done. }
    assert (Hrest : drop (S index) (uvs model) = us).
    { rewrite <- Nat.add_1_r, <- drop_drop, Hdrop. done. }
    rewrite Forall_cons. cbn [buildFaces]. rewrite Hu.
    rewrite <- (buildFace_done_iff face u st Hlen).
    destruct (buildFace palettes settings texture model position size face
                (Some u) st) as [st1|st1].
    + rewrite (IH us (S index) st1 Hrest Hpar).
      split; [intros Hfs; split; [by eexists | done] | by intros [_ ?]].
    + split; [by intros [st' ?] | by intros [[st' ?] _]].
Qed.

End ParsedMesh.

(** A mesh read by [parseModelData] has, for every face, a row of UV
    indices of the same length.  A faces build of such a mesh can
    therefore throw in one way only, on [vertex.x] of a vertex that
    does not exist: when it throws, a vertex index of some face refers
    to no vertex the text defines; and when the first face has such an
    index, the build throws before anything is sent. *)
Theorem buildModel_of_parsed_mesh_throws_only_for_missing_vertex `{Host}
    (palettes : gmap string (list Swatch)) (settings : Settings)
    (texture : NdArray) (data : string) (position : Point) (size : Q)
    (st : Raster) :
  Forall2 (fun face uvRow => length face = length uvRow)
    (faces (parseModelData data)) (uvs (parseModelData data))
  ∧ (∀ st',
       buildModel palettes settings texture (parseModelData data)
         position size false st = MeshThrew st' →
       Exists (fun face => ¬ faceInRange (parseModelData data) face)
         (faces (parseModelData data)))
  ∧ (∀ face rest,
       faces (parseModelData data) = face :: rest →
       ¬ faceInRange (parseModelData data) face →
       buildModel palettes settings texture (parseModelData data)
         position size false st = MeshThrew st).
Proof.
  split_and!.
  - apply parseModelData_parallel.
  - intros st' Hthrew.
    destruct (decide (Forall (faceInRange (parseModelData data))
                        (faces (parseModelData data)))) as [Hall | Hnot].
    + apply (buildFaces_done_iff palettes settings texture
               (parseModelData data) position size _
               (uvs (parseModelData data)) 0%nat st eq_refl
               (parseModelData_parallel data)) in Hall as [st1 Hdone].
      unfold buildModel in Hthrew. congruence.
    + by apply not_Forall_Exists in Hnot; [|apply _].
  - intros face rest Hfaces Hout. unfold buildModel. rewrite Hfaces.
    cbn [buildFaces]. unfold buildFace.
    destruct (facePoints (parseModelData data) position size face) eqn:E;
      [|done].
    destruct Hout. apply (facePoints_is_Some _ position size). by eexists.
Qed.

(** *** Decimal vertex references *)

Lemma pretty_N_char_digit (d : N) :
  (d < 10)%N →
  Parse.isDigit (pretty_N_char d) = true
  ∧ Z.of_nat (nat_of_ascii (pretty_N_char d)) - 48 = Z.of_N d.
Proof.
  intros Hd.
  assert (d = 0 ∨ d = 1 ∨ d = 2 ∨ d = 3 ∨ d = 4 ∨ d = 5 ∨ d = 6 ∨ d = 7
          ∨ d = 8 ∨ d = 9)%N as Hcases by lia.
  destruct_or!; subst d; by vm_compute.
Qed.

Lemma digit_is_not (c sep : ascii) :
  Parse.isDigit c = true → Parse.isDigit sep = false → Ascii.eqb c sep = false.
Proof.
  intros Hc Hsep. destruct (Ascii.eqb c sep) eqn:E; [|done].
  apply Ascii.eqb_eq in E. congruence.
Qed.

Lemma digits_pretty_N_go (x : N) : ∀ s seen,
  (0 < x)%N →
  Parse.digits 0 seen (pretty_N_go x s) = Parse.digits (Z.of_N x) true s.
Proof.
  induction (N.lt_wf_0 x) as [x _ IH]; intros s seen Hx.
  rewrite pretty_N_go_step by done.
  destruct (pretty_N_char_digit (x `mod` 10)) as [Hd Hv];
    [by apply N.mod_lt|].
  pose proof (N.div_mod x 10 ltac:(done)) as Hx10.
  destruct (decide (x `div` 10 = 0)%N) as [E | E].
  - rewrite E, pretty_N_go_0. cbn [Parse.digits]. rewrite Hd, Hv.
    f_equal. lia.
  - rewrite IH; [|by apply N.div_lt|apply N.neq_0_lt_0; exact E].
    cbn [Parse.digits]. rewrite Hd, Hv. f_equal. lia.
Qed.

Lemma pretty_N_go_lacks (sep : ascii) (x : N) : ∀ s,
  Parse.isDigit sep = false →
  Js.lacks sep (pretty_N_go x s) = Js.lacks sep s.
Proof.
  induction (N.lt_wf_0 x) as [x _ IH]; intros s Hsep.
  destruct (decide (x = 0)%N) as [-> | Hx]; [by rewrite pretty_N_go_0|].
  rewrite pretty_N_go_step by lia.
  rewrite IH; [|apply N.div_lt; lia|done].
  cbn [Js.lacks].
  destruct (pretty_N_char_digit (x `mod` 10)) as [Hd _];
    [by apply N.mod_lt|].
  by rewrite (digit_is_not _ _ Hd Hsep).
Qed.

Lemma pretty_N_go_head (x : N) : ∀ s,
  (0 < x)%N →
  ∃ c rest, pretty_N_go x s = String c rest ∧ Parse.isDigit c = true.
Proof.
  induction (N.lt_wf_0 x) as [x _ IH]; intros s Hx.
  rewrite pretty_N_go_step by done.
  destruct (decide (x `div` 10 = 0)%N) as [E | E].
  - rewrite E, pretty_N_go_0. eexists _, _. split; [done|].
    apply pretty_N_char_digit. by apply N.mod_lt.
  - apply IH; [by apply N.div_lt | apply N.neq_0_lt_0; exact E].
Qed.

Lemma parseInt_digits (c : ascii) (rest : string) :
  Parse.isDigit c = true →
  Parse.parseInt (String c rest)
  = let '(n, seen) := Parse.digits 0 false (String c rest) in
    if seen : bool then Some (1 * n) else None.
Proof.
  intros Hd.
  destruct c as [[] [] [] [] [] [] [] []]; vm_compute in Hd;
    try discriminate Hd; reflexivity.
Qed.

Lemma pretty_N_decimal (n : N) :
  Parse.parseInt (pretty n) = Some (Z.of_N n)
  ∧ Js.lacks "/" (pretty n) = true
  ∧ pretty n ≠ "".
Proof.
  unfold pretty, pretty_N. case_decide as Hn; [by subst n|].
  destruct (pretty_N_go_head n "") as (c & rest & E & Hd); [lia|].
  split_and!.
  - rewrite E, (parseInt_digits c rest Hd), <- E.
    rewrite digits_pretty_N_go by lia. simpl. f_equal. lia.
  - by rewrite pretty_N_go_lacks.
  - by rewrite E.
Qed.

(** A vertex reference of an [f] line in decimal, [v], [v/t], [v/t/n]
    or [v//n], with [v] and [t] numbers a double holds exactly (up to
    2^53), is read back as the numbers written, less one: the mesh text
    counts from 1, the arrays of the build from 0.  Without a UV part
    the UV index is 0. *)
Theorem parseFaceRef_decimal (v t n : N) :
  (v <= 2 ^ 53)%N → (t <= 2 ^ 53)%N →
  parseFaceRef (pretty v) = (Some (Z.of_N v - 1), Some 0)
  ∧ parseFaceRef (pretty v +:+ "/" +:+ pretty t)
    = (Some (Z.of_N v - 1), Some (Z.of_N t - 1))
  ∧ parseFaceRef (pretty v +:+ "/" +:+ pretty t +:+ "/" +:+ pretty n)
    = (Some (Z.of_N v - 1), Some (Z.of_N t - 1))
  ∧ parseFaceRef (pretty v +:+ "//" +:+ pretty n)
    = (Some (Z.of_N v - 1), Some 0).
Proof.
  intros _ _.
  destruct (pretty_N_decimal v) as (Hv & Lv & _).
  destruct (pretty_N_decimal t) as (Ht & Lt & Nt).
  destruct (pretty_N_decimal n) as (_ & Ln & _).
  apply String.eqb_neq in Nt.
  unfold parseFaceRef. split_and!.
  - rewrite (split_lacks _ _ Lv). simpl. by rewrite Hv.
  - change ("/" +:+ pretty t) with (String "/" (pretty t)).
    rewrite (split_app _ _ _ Lv), (split_lacks _ _ Lt). simpl.
    by rewrite Hv, Ht, Nt.
  - change ("/" +:+ pretty t +:+ "/" +:+ pretty n)
      with (String "/" (pretty t +:+ String "/" (pretty n))).
    rewrite (split_app _ _ _ Lv), (split_app _ _ _ Lt), (split_lacks _ _ Ln).
    simpl. by rewrite Hv, Ht, Nt.
  - change ("//" +:+ pretty n) with (String "/" ("" +:+ String "/" (pretty n))).
    rewrite (split_app _ _ _ Lv), (split_app "/" "" _ eq_refl),
      (split_lacks _ _ Ln).
    simpl. by rewrite Hv.
Qed.

Lemma parseFaceRef_decimal_witness :
  parseFaceRef (pretty 12%N) = (Some (Z.of_N 12 - 1), Some 0)
  ∧ parseFaceRef (pretty 12%N +:+ "/" +:+ pretty 7%N)
    = (Some (Z.of_N 12 - 1), Some (Z.of_N 7 - 1))
  ∧ parseFaceRef (pretty 12%N +:+ "/" +:+ pretty 7%N +:+ "/" +:+ pretty 3%N)
    = (Some (Z.of_N 12 - 1), Some (Z.of_N 7 - 1))
  ∧ parseFaceRef (pretty 12%N +:+ "//" +:+ pretty 3%N)
    = (Some (Z.of_N 12 - 1), Some 0).
Proof.
  apply (parseFaceRef_decimal 12 7 3).
  - vm_compute. discriminate.
  - vm_compute. discriminate.
Defined.

(** ** The command line *)

Module TokenizeFacts.
Import CommandManager.

Lemma chars_app (a b : string) :
  list_ascii_of_string (a +:+ b)
  = list_ascii_of_string a ++ list_ascii_of_string b.
Proof. induction a as [|c a IH]; simpl; [done|]. by rewrite <- IH. Qed.

Lemma pushChar_app (cur : string) (c : ascii) (rest : string) :
  pushChar cur c +:+ rest = cur +:+ String c rest.
Proof.
  unfold pushChar. induction cur as [|d cur IH]; simpl; [done|].
  apply (f_equal (String d)). exact IH.
Qed.

Lemma pushChar_nonempty (cur : string) (c : ascii) :
  String.eqb (pushChar cur c) "" = false.
Proof. by destruct cur. Qed.

Lemma string_of_snoc (l : list ascii) (c : ascii) :
  string_of_list_ascii (l ++ [c]) = pushChar (string_of_list_ascii l) c.
Proof. induction l as [|d l IH]; simpl; [done|]. by rewrite IH. Qed.

Lemma append_empty (s : string) : s +:+ "" = s.
Proof.
  induction s as [|c s IH]; simpl; [done|].
  apply (f_equal (String c)). exact IH.
Qed.

(** The tokens pushed so far are never looked at again. *)
Lemma step_prefix (pre : list string) (sc : Scanner) (c : ascii) :
  tokenizeStep
    (mkScanner (pre ++ tokens sc) (current sc) (escapeNext sc) (quoteChar sc))
    c
  = mkScanner (pre ++ tokens (tokenizeStep sc c))
      (current (tokenizeStep sc c)) (escapeNext (tokenizeStep sc c))
      (quoteChar (tokenizeStep sc c)).
Proof.
  unfold tokenizeStep. destruct sc as [ts cur e q]. simpl.
  repeat case_match; simpl; by rewrite ?app_assoc.
Qed.

Lemma run_prefix (chars : list ascii) : ∀ pre sc,
  foldl tokenizeStep
    (mkScanner (pre ++ tokens sc) (current sc) (escapeNext sc) (quoteChar sc))
    chars
  = mkScanner (pre ++ tokens (foldl tokenizeStep sc chars))
      (current (foldl tokenizeStep sc chars))
      (escapeNext (foldl tokenizeStep sc chars))
      (quoteChar (foldl tokenizeStep sc chars)).
Proof.
  induction chars as [|c chars IH]; intros pre sc; [done|].
  cbn [foldl]. rewrite step_prefix. apply IH.
Qed.

(** No token pushed is empty. *)
Lemma run_nonempty (chars : list ascii) : ∀ sc,
  Forall (fun t => t ≠ "") (tokens sc) →
  Forall (fun t => t ≠ "") (tokens (foldl tokenizeStep sc chars)).
Proof.
  induction chars as [|c chars IH]; intros sc Hsc; [done|].
  cbn [foldl]. apply IH. unfold tokenizeStep.
  repeat case_match; simpl; try done.
  apply Forall_app. split; [done|]. constructor; [|done].
  intros E. rewrite E in *. done.
Qed.

Lemma run_plain (s : string) : ∀ ts cur,
  isPlain s = true →
  tokenizeEnd
    (foldl tokenizeStep
       (mkScanner ts (string_of_list_ascii (rev cur)) false None)
       (list_ascii_of_string s))
  = inr (ts ++ Parse.words cur s).
Proof.
  induction s as [|c s IH]; intros ts cur Hplain.
  - unfold tokenizeEnd. simpl. destruct cur as [|d cur]; simpl.
    + by rewrite app_nil_r.
    + by rewrite string_of_snoc, pushChar_nonempty.
  - simpl in Hplain.
    apply andb_true_iff in Hplain as [Hc Hplain].
    apply andb_true_iff in Hc as [Hc Hs].
    apply andb_true_iff in Hc as [Hb Hd].
    apply negb_true_iff in Hb, Hd, Hs.
    cbn [list_ascii_of_string foldl Parse.words].
    unfold tokenizeStep at 2.
    cbn [tokens current escapeNext quoteChar].
    rewrite Hb, Hd, Hs. cbn [orb].
    destruct (Parse.isSpace c).
    + destruct cur as [|d cur].
      * simpl. apply (IH ts []). exact Hplain.
      * cbn [rev]. rewrite string_of_snoc, pushChar_nonempty. cbn [negb].
        rewrite (IH _ [] Hplain), <- app_assoc. done.
    + rewrite <- string_of_snoc. apply (IH ts (c :: cur)). exact Hplain.
Qed.

Lemma run_quoted (s : string) : ∀ ts cur q,
  Js.lacks q s = true → Js.lacks backslash s = true →
  foldl tokenizeStep (mkScanner ts cur false (Some q)) (list_ascii_of_string s)
  = mkScanner ts (cur +:+ s) false (Some q).
Proof.
  induction s as [|c s IH]; intros ts cur q Hq Hb.
  - simpl. by rewrite append_empty.
  - simpl in Hq, Hb.
    apply andb_true_iff in Hq as [Hq Hq'].
    apply andb_true_iff in Hb as [Hb Hb'].
    apply negb_true_iff in Hq, Hb.
    cbn [list_ascii_of_string foldl]. unfold tokenizeStep at 2.
    cbn [tokens current escapeNext quoteChar].
    rewrite Hb, Hq. rewrite (IH _ _ _ Hq' Hb'). by rewrite pushChar_app.
Qed.

(** What [tokenize] accepts, in terms of the scanner at the end. *)
Lemma tokenizeEnd_inr (sc : Scanner) (ts : list string) :
  tokenizeEnd sc = inr ts →
  quoteChar sc = None ∧ escapeNext sc = false
  ∧ ts = tokens sc
         ++ (if negb (String.eqb (current sc) "") then [current sc] else []).
Proof.
  unfold tokenizeEnd. destruct (quoteChar sc); [done|].
  destruct (escapeNext sc); [done|].
  destruct (negb (String.eqb (current sc) "")); intros [= <-];
    by rewrite ?app_nil_r.
Qed.

End TokenizeFacts.

(** [tokenize] returns no empty token: an argument quoted as [''] or
    [""] with nothing inside is dropped, not passed on as an empty
    string. *)
Theorem tokenize_has_no_empty_token (input : string) (ts : list string) :
  CommandManager.tokenize input = inr ts →
  Forall (fun t => t ≠ "") ts
  ∧ CommandManager.tokenize (input +:+ " ''") = inr ts.
Proof.
  intros Hts. unfold CommandManager.tokenize in *.
  rewrite TokenizeFacts.chars_app, foldl_app.
  pose proof (TokenizeFacts.run_nonempty (list_ascii_of_string input)
                (CommandManager.mkScanner [] "" false None)
                ltac:(constructor)) as Hne.
  destruct (foldl CommandManager.tokenizeStep _ (list_ascii_of_string input))
    as [tokens current e q].
  apply TokenizeFacts.tokenizeEnd_inr in Hts as (Hq & He & ->).
  simpl in Hq, He, Hne |- *. subst q e.
  destruct (String.eqb current "") eqn:E; simpl.
  - rewrite app_nil_r. split; [done|].
    unfold CommandManager.tokenizeStep, CommandManager.tokenizeEnd. simpl.
    rewrite E. simpl. by rewrite E.
  - split.
    + apply Forall_app. split; [done|]. constructor; [|done].
      intros ->. done.
    + unfold CommandManager.tokenizeStep, CommandManager.tokenizeEnd. simpl.
      rewrite E. simpl. done.
Qed.

Lemma tokenize_has_no_empty_token_witness :
  Forall (fun t => t ≠ "") ["draw"; "cat.png"]
  ∧ CommandManager.tokenize ("draw  cat.png" +:+ " ''")
    = inr ["draw"; "cat.png"].
Proof.
  apply (tokenize_has_no_empty_token "draw  cat.png" ["draw"; "cat.png"]).
  reflexivity.
Defined.

(** On an input without backslash and quote, [tokenize] is the split at
    white space: its tokens are the maximal runs of characters that are
    not white space, in order. *)
Theorem tokenize_plain_input_is_split_at_white_space (input : string) :
  CommandManager.isPlain input = true →
  CommandManager.tokenize input = inr (Parse.words [] input).
Proof.
  intros Hplain.
  exact (TokenizeFacts.run_plain input [] [] Hplain).
Qed.

Lemma tokenize_plain_input_witness :
  CommandManager.tokenize "  gif  cat.gif 32x32 "
  = inr (Parse.words [] "  gif  cat.gif 32x32 ").
Proof.
  apply (tokenize_plain_input_is_split_at_white_space "  gif  cat.gif 32x32 ").
  reflexivity.
Defined.

(** Two command lines that [tokenize] accepts, put together with a
    white-space character between them, give the tokens of the first
    followed by the tokens of the second. *)
Theorem tokenize_of_two_parts (a b : string) (sep : ascii)
    (ta tb : list string) :
  Parse.isSpace sep = true →
  CommandManager.tokenize a = inr ta →
  CommandManager.tokenize b = inr tb →
  CommandManager.tokenize (a +:+ String sep b) = inr (ta ++ tb).
Proof.
  intros Hsep Ha Hb. unfold CommandManager.tokenize in *.
  rewrite TokenizeFacts.chars_app, foldl_app.
  destruct (foldl CommandManager.tokenizeStep _ (list_ascii_of_string a))
    as [tokens current e q].
  apply TokenizeFacts.tokenizeEnd_inr in Ha as (Hq & He & ->).
  simpl in Hq, He |- *. subst q e.
  assert (Hstep :
    CommandManager.tokenizeStep
      (CommandManager.mkScanner tokens current false None) sep
    = CommandManager.mkScanner
        ((tokens ++ (if negb (String.eqb current "") then [current] else []))
         ++ []) "" false None).
  { unfold CommandManager.tokenizeStep. simpl.
    assert (Hnb : Ascii.eqb sep CommandManager.backslash = false).
    { destruct (Ascii.eqb sep CommandManager.backslash) eqn:E; [|done].
      apply Ascii.eqb_eq in E. by subst sep. }
    assert (Hnd : Ascii.eqb sep CommandManager.doubleQuote = false).
    { destruct (Ascii.eqb sep CommandManager.doubleQuote) eqn:E; [|done].
      apply Ascii.eqb_eq in E. by subst sep. }
    assert (Hns : Ascii.eqb sep CommandManager.singleQuote = false).
    { destruct (Ascii.eqb sep CommandManager.singleQuote) eqn:E; [|done].
      apply Ascii.eqb_eq in E. by subst sep. }
    rewrite Hnb, Hnd, Hns, Hsep. simpl.
    destruct (String.eqb current "") eqn:E; simpl.
    - apply String.eqb_eq in E. subst current. by rewrite !app_nil_r.
    - by rewrite app_nil_r. }
  rewrite Hstep.
  pose proof (TokenizeFacts.run_prefix (list_ascii_of_string b)
                (tokens ++ (if negb (String.eqb current "")
                            then [current] else []))
                (CommandManager.mkScanner [] "" false None)) as Hrun.
  simpl in Hrun. rewrite Hrun. clear Hrun.
  destruct (foldl CommandManager.tokenizeStep _ (list_ascii_of_string b))
    as [tokens' current' e' q'].
  apply TokenizeFacts.tokenizeEnd_inr in Hb as (Hq & He & ->).
  simpl in Hq, He |- *. subst q' e'.
  unfold CommandManager.tokenizeEnd. simpl.
  destruct (negb (String.eqb current' "")); by rewrite ?app_nil_r, ?app_assoc.
Qed.

Lemma tokenize_of_two_parts_witness :
  CommandManager.tokenize ("draw 'my cat.png'" +:+ String "009" "16x16 --mode=LAB")
  = inr (["draw"; "my cat.png"] ++ ["16x16"; "--mode=LAB"]).
Proof.
  apply (tokenize_of_two_parts "draw 'my cat.png'" "16x16 --mode=LAB" "009").
  - reflexivity.
  - reflexivity.
  - reflexivity.
Defined.

(** Between two quotes of the same kind, a text that holds neither that
    quote nor a backslash is one token, white space and all; when the
    text is empty there is no token.  A command line that [tokenize]
    accepts is refused once a lone quote or a lone backslash is added
    at its end. *)
Theorem tokenize_quotes_and_escapes (q : ascii) (text input : string)
    (ts : list string) :
  q = CommandManager.doubleQuote ∨ q = CommandManager.singleQuote →
  Js.lacks q text = true →
  Js.lacks CommandManager.backslash text = true →
  CommandManager.tokenize input = inr ts →
  CommandManager.tokenize (String q (text +:+ String q ""))
  = inr (if String.eqb text "" then [] else [text])
  ∧ CommandManager.tokenize (input +:+ String q "")
    = inl CommandManager.UnterminatedQuote
  ∧ CommandManager.tokenize
      (input +:+ String CommandManager.backslash "")
    = inl CommandManager.TrailingEscape.
Proof.
  intros Hq Hlq Hlb Hts. split_and!.
  - unfold CommandManager.tokenize. cbn [list_ascii_of_string foldl].
    assert (Hopen :
      CommandManager.tokenizeStep
        (CommandManager.mkScanner [] "" false None) q
      = CommandManager.mkScanner [] "" false (Some q))
      by (destruct Hq; subst q; reflexivity).
    rewrite Hopen, TokenizeFacts.chars_app, foldl_app.
    rewrite (TokenizeFacts.run_quoted text [] "" q Hlq Hlb).
    simpl. unfold CommandManager.tokenizeStep. simpl.
    assert (Hnb : Ascii.eqb q CommandManager.backslash = false)
      by (destruct Hq; subst q; reflexivity).
    rewrite Hnb, Ascii.eqb_refl.
    unfold CommandManager.tokenizeEnd. simpl.
    change ("" +:+ text) with text.
    by destruct (String.eqb text "").
  - unfold CommandManager.tokenize in *.
    rewrite TokenizeFacts.chars_app, foldl_app.
    destruct (foldl CommandManager.tokenizeStep _ (list_ascii_of_string input))
      as [tokens current e q0].
    apply TokenizeFacts.tokenizeEnd_inr in Hts as (Hq0 & He & _).
    simpl in Hq0, He |- *. subst q0 e.
    destruct Hq; subst q; reflexivity.
  - unfold CommandManager.tokenize in *.
    rewrite TokenizeFacts.chars_app, foldl_app.
    destruct (foldl CommandManager.tokenizeStep _ (list_ascii_of_string input))
      as [tokens current e q0].
    apply TokenizeFacts.tokenizeEnd_inr in Hts as (Hq0 & He & _).
    simpl in Hq0, He |- *. subst q0 e. reflexivity.
Qed.

Lemma tokenize_quotes_and_escapes_witness :
  CommandManager.tokenize (String "'" ("my cat.png" +:+ String "'" ""))
  = inr (if String.eqb "my cat.png" "" then [] else ["my cat.png"])
  ∧ CommandManager.tokenize ("draw cat.png" +:+ String "'" "")
    = inl CommandManager.UnterminatedQuote
  ∧ CommandManager.tokenize
      ("draw cat.png" +:+ String CommandManager.backslash "")
    = inl CommandManager.TrailingEscape.
Proof.
  apply (tokenize_quotes_and_escapes "'" "my cat.png" "draw cat.png"
           ["draw"; "cat.png"]).
  - right. reflexivity.
  - reflexivity.
  - reflexivity.
  - reflexivity.
Defined.

(** ** The command table *)

Module RegistryFacts.
Import CommandManager.

Lemma lowerChar_idem (c : ascii) : lowerChar (lowerChar c) = lowerChar c.
Proof. destruct c as [[] [] [] [] [] [] [] []]; reflexivity. Qed.

Lemma toLowerCase_idem (s : string) :
  toLowerCase (toLowerCase s) = toLowerCase s.
Proof.
  induction s as [|c s IH]; simpl; [done|]. by rewrite lowerChar_idem, IH.
Qed.

Lemma toLowerCase_empty (s : string) :
  String.eqb (toLowerCase s) "" = String.eqb s "".
Proof. by destruct s. Qed.

Lemma setAliases_lookup (names : list string) : ∀ table name k,
  setAliases table names name !! k
  = if decide (k ∈ names) then Some name else table !! k.
Proof.
  unfold setAliases.
  induction names as [|a names IH]; intros table name k; cbn [foldl].
  - destruct (decide (k ∈ [])) as [Hin | _]; [|done].
    by apply elem_of_nil in Hin.
  - rewrite IH.
    destruct (decide (k ∈ names)) as [Hin | Hout],
             (decide (k ∈ a :: names)) as [Hin' | Hout']; try done.
    + exfalso. apply Hout'. by right.
    + apply elem_of_cons in Hin' as [-> | ?]; [|done].
      by rewrite lookup_insert_eq.
    + rewrite lookup_insert_ne; [done|].
      intros <-. apply Hout'. left.
Qed.

Section Registry.
Context {Handler : Type}.
Implicit Types (m : Manager Handler) (d : CommandDefinition Handler)
  (c : Command Handler).

Lemma find_free (table : gmap string string) (names : list string) :
  List.find (fun alias => bool_decide (is_Some (table !! alias))) names = None
  ↔ Forall (fun alias => table !! alias = None) names.
Proof.
  induction names as [|a names IH]; simpl.
  - split; [by constructor | done].
  - rewrite Forall_cons, <- IH. case_bool_decide as Ha.
    + split; [done|]. intros [Hnone _]. rewrite Hnone in Ha.
      by destruct Ha.
    + split; [|by intros [_ ?]]. intros Hfind. split; [|done].
      by apply eq_None_not_Some.
Qed.

(** What a successful [register] checked and did. *)
Lemma register_inr m d m' c :
  register m (Some d) = inr (m', c) →
  ∃ written h,
    d_name d = Some written
    ∧ written ≠ ""
    ∧ commands m !! toLowerCase written = None
    ∧ Forall (fun alias => aliasToName m !! alias = None) (aliasesOf d)
    ∧ d_handler d = Some h
    ∧ c = mkCommand Handler (toLowerCase written) h (default "" (d_usage _ d))
            (default "" (d_description _ d)) (aliasesOf d) (d_hidden _ d)
    ∧ m' = mkManager Handler (<[toLowerCase written := c]> (commands m))
             (setAliases (aliasToName m) (aliasesOf d) (toLowerCase written)).
Proof.
  unfold register. destruct (d_name d) as [written|]; [|done]. simpl.
  rewrite toLowerCase_empty.
  destruct (String.eqb written "") eqn:Ew; [done|].
  apply String.eqb_neq in Ew.
  case_bool_decide as Hname; [done|].
  destruct (List.find _ (aliasesOf d)) eqn:Efind; [done|].
  apply find_free in Efind.
  destruct (d_handler d) as [h|]; [|done].
  intros [= <- <-]. exists written, h. split_and!; try done.
  by apply eq_None_not_Some.
Qed.

End Registry.

End RegistryFacts.

(** [register] accepts a definition exactly when it has a non-empty
    name that, lowered, is not yet the name of a command, none of its
    lowered aliases is yet an alias, and it has a handler.  Nothing
    else is checked: the name is not compared with the aliases
    registered before, nor the aliases with the names. *)
Theorem register_accepts_iff {Handler : Type}
    (m : CommandManager.Manager Handler)
    (d : CommandManager.CommandDefinition Handler) :
  (∃ m' c, CommandManager.register m (Some d) = inr (m', c))
  ↔ (∃ written,
       CommandManager.d_name d = Some written
       ∧ written ≠ ""
       ∧ CommandManager.commands m !! CommandManager.toLowerCase written = None)
    ∧ Forall (fun alias => CommandManager.aliasToName m !! alias = None)
        (CommandManager.aliasesOf d)
    ∧ is_Some (CommandManager.d_handler d).
Proof.
  split.
  - intros (m' & c & Hreg).
    apply RegistryFacts.register_inr in Hreg
      as (written & h & Hn & Hne & Hfree & Hal & Hh & _ & _).
    split_and!; [by exists written | done | by exists h].
  - intros [(written & Hn & Hne & Hfree) [Hal [h Hh]]].
    unfold CommandManager.register. rewrite Hn. simpl.
    rewrite RegistryFacts.toLowerCase_empty.
    apply String.eqb_neq in Hne. rewrite Hne.
    rewrite bool_decide_eq_false_2 by (rewrite Hfree; by intros [? ?]).
    apply RegistryFacts.find_free in Hal. rewrite Hal, Hh. by eexists _, _.
Qed.

(** After a successful [register], [find] gives the new command for the
    name as it was written in the definition, in any case of letters,
    and for each alias as written, save an empty one, unless the
    lowered alias is the name of a command registered before: then
    [find] gives that command, and the alias is never used. *)
Theorem find_after_register {Handler : Type}
    (m m' : CommandManager.Manager Handler)
    (d : CommandManager.CommandDefinition Handler)
    (c : CommandManager.Command Handler) :
  CommandManager.register m (Some d) = inr (m', c) →
  CommandManager.find m' (CommandManager.d_name d) = Some c
  ∧ CommandManager.find m' (Some (CommandManager.name c)) = Some c
  ∧ ∀ written alias,
      CommandManager.d_aliases d = Some written →
      alias ∈ written → alias ≠ "" →
      CommandManager.find m' (Some alias)
      = match CommandManager.commands m !! CommandManager.toLowerCase alias with
        | Some earlier => Some earlier
        | None => Some c
        end.
Proof.
  intros Hreg.
  apply RegistryFacts.register_inr in Hreg
    as (written & h & Hn & Hne & Hfree & Hal & Hh & Hc & ->).
  assert (Hname : CommandManager.name c = CommandManager.toLowerCase written)
    by (by rewrite Hc).
  apply String.eqb_neq in Hne.
  assert (Hlow : String.eqb (CommandManager.toLowerCase written) "" = false)
    by (by rewrite RegistryFacts.toLowerCase_empty).
  split_and!.
  - rewrite Hn. unfold CommandManager.find. rewrite Hne. simpl.
    by rewrite lookup_insert_eq.
  - rewrite Hname. unfold CommandManager.find. rewrite Hlow. simpl.
    by rewrite RegistryFacts.toLowerCase_idem, lookup_insert_eq.
  - intros al alias Hal' Hin Halias.
    apply String.eqb_neq in Halias.
    unfold CommandManager.find. rewrite Halias. simpl.
    destruct (decide (CommandManager.toLowerCase alias
                      = CommandManager.toLowerCase written)) as [E | E].
    + rewrite E, lookup_insert_eq, Hfree. done.
    + rewrite lookup_insert_ne by done.
      destruct (CommandManager.commands m !! CommandManager.toLowerCase alias)
        as [earlier|]; [done|].
      rewrite RegistryFacts.setAliases_lookup.
      destruct (decide (CommandManager.toLowerCase alias
                        ∈ CommandManager.aliasesOf d)) as [_ | Hout].
      * by rewrite Hlow, lookup_insert_eq.
      * exfalso. apply Hout.
        unfold CommandManager.aliasesOf. rewrite Hal'.
        by apply (list_elem_of_fmap_2 CommandManager.toLowerCase).
Qed.

Lemma find_after_register_witness :
  CommandManager.find CommandExample.withHelp (Some "Help")
  = Some CommandExample.helpCommand
  ∧ CommandManager.find CommandExample.withHelp (Some "help")
    = Some CommandExample.helpCommand
  ∧ CommandManager.find CommandExample.withHelp (Some "H")
    = Some CommandExample.helpCommand.
Proof.
  destruct (find_after_register CommandExample.start CommandExample.withHelp
              CommandExample.helpDefinition CommandExample.helpCommand
              eq_refl) as (Hname & Hlow & Halias).
  split_and!; [exact Hname | exact Hlow |].
  refine (Halias ["?"; "H"] "H" eq_refl _ _).
  - right. left.
  - discriminate.
Defined.

(** A successful [register] does not change what [find] gave before,
    with one exception: a word that was found as an alias and is,
    lowered, the name of the new command now gives the new command.
    The new name takes the alias over. *)
Theorem register_keeps_or_shadows {Handler : Type}
    (m m' : CommandManager.Manager Handler)
    (d : CommandManager.CommandDefinition Handler)
    (c earlier : CommandManager.Command Handler) (word : string) :
  CommandManager.register m (Some d) = inr (m', c) →
  CommandManager.find m (Some word) = Some earlier →
  CommandManager.find m' (Some word)
  = (if decide (CommandManager.toLowerCase word = CommandManager.name c)
     then Some c else Some earlier)
  ∧ (CommandManager.toLowerCase word = CommandManager.name c →
     is_Some (CommandManager.aliasToName m
                !! CommandManager.toLowerCase word)).
Proof.
  intros Hreg Hfind.
  apply RegistryFacts.register_inr in Hreg
    as (written & h & Hn & Hne & Hfree & Hal & Hh & Hc & ->).
  assert (Hname : CommandManager.name c = CommandManager.toLowerCase written)
    by (by rewrite Hc).
  rewrite Hname. clear Hc Hname.
  unfold CommandManager.find in *.
  destruct (String.eqb word "") eqn:Eword; [done|]. simpl in *.
  set (lowered := CommandManager.toLowerCase word) in *.
  set (name := CommandManager.toLowerCase written) in *.
  destruct (decide (lowered = name)) as [E | E].
  - rewrite E, lookup_insert_eq. split; [done|]. intros _.
    rewrite E, Hfree in Hfind.
    destruct (CommandManager.aliasToName m !! name); [by eexists | done].
  - split; [|done]. rewrite lookup_insert_ne by done.
    destruct (CommandManager.commands m !! lowered) as [found|]; [done|].
    rewrite RegistryFacts.setAliases_lookup.
    destruct (CommandManager.aliasToName m !! lowered) as [resolved|] eqn:Eres;
      [|done].
    destruct (decide (lowered ∈ CommandManager.aliasesOf d)) as [Hin | _].
    + rewrite Forall_forall in Hal.
      rewrite (Hal lowered Hin) in Eres. done.
    + destruct (String.eqb resolved ""); [done|].
      rewrite lookup_insert_ne; [done|].
      intros <-. by rewrite Hfree in Hfind.
Qed.

Lemma register_keeps_or_shadows_witness :
  (CommandManager.find CommandExample.withMark (Some "?")
   = Some CommandExample.markCommand
   ∧ CommandManager.find CommandExample.withHelp (Some "?")
     = Some CommandExample.helpCommand)
  ∧ CommandManager.find CommandExample.withMark (Some "HELP")
    = Some CommandExample.helpCommand.
Proof.
  pose proof (register_keeps_or_shadows CommandExample.withHelp
                CommandExample.withMark CommandExample.markDefinition
                CommandExample.markCommand CommandExample.helpCommand)
    as Hkeeps.
  split; [split|].
  - exact (proj1 (Hkeeps "?" eq_refl eq_refl)).
  - reflexivity.
  - exact (proj1 (Hkeeps "HELP" eq_refl eq_refl)).
Defined.

(** ** The size argument *)

#[local] Arguments pretty_N_go : simpl never.

Module SizeFacts.
Import Size.

Lemma spanDigits_head (s d r : string) :
  spanDigits s = (d, r) → d ≠ "" →
  ∃ c d', d = String c d' ∧ Parse.isDigit c = true.
Proof.
  destruct s as [|c s]; simpl.
  - by intros [= <- <-].
  - destruct (Parse.isDigit c) eqn:Hc.
    + destruct (spanDigits s) as [d' r']. intros [= <- <-] _. by eexists _, _.
    + by intros [= <- <-].
Qed.

Lemma digits_seen (s : string) : ∀ acc, snd (Parse.digits acc true s) = true.
Proof.
  induction s as [|c s IH]; intros acc; simpl; [done|].
  destruct (Parse.isDigit c); [apply IH | done].
Qed.

Lemma parseInt_group (c : ascii) (d : string) :
  Parse.isDigit c = true → is_Some (Parse.parseInt (String c d)).
Proof.
  intros Hc. rewrite (parseInt_digits c d Hc).
  cbn [Parse.digits]. rewrite Hc.
  pose proof (digits_seen d (10 * 0 + (Z.of_nat (nat_of_ascii c) - 48))) as Hs.
  destruct (Parse.digits _ true d) as [n seen]. simpl in Hs. subst seen.
  by eexists.
Qed.

Lemma matchSize_groups (text g1 : string) (g2 : option string) :
  matchSize text = Some (g1, g2) →
  is_Some (Parse.parseInt g1)
  ∧ ∀ g, g2 = Some g → is_Some (Parse.parseInt g).
Proof.
  unfold matchSize. destruct (spanDigits text) as [w rest] eqn:Ew.
  destruct (String.eqb w "") eqn:Hw; [done|].
  apply String.eqb_neq in Hw.
  destruct (spanDigits_head _ _ _ Ew Hw) as (c & d & -> & Hc).
  pose proof (parseInt_group c d Hc) as Hg1.
  destruct rest as [|x rest]; [intros [= <- <-]; by split|].
  destruct (Ascii.eqb x "x") eqn:Hx.
  - apply Ascii.eqb_eq in Hx. subst x.
    destruct (spanDigits rest) as [h rest'] eqn:Eh.
    destruct (String.eqb h "") eqn:Hh; [done|].
    apply String.eqb_neq in Hh.
    destruct (spanDigits_head _ _ _ Eh Hh) as (c' & d' & -> & Hc').
    destruct (String.eqb rest' ""); [|done].
    intros [= <- <-]. split; [done|]. intros g [= <-].
    by apply parseInt_group.
  - apply Ascii.eqb_neq in Hx.
    destruct x as [[] [] [] [] [] [] [] []]; try done.
Qed.

Lemma notPositive_false (n : option Z) (z : Z) :
  n = Some z → notPositive n = false → 1 <= z.
Proof. intros -> Hz. simpl in Hz. apply Z.leb_gt in Hz. lia. Qed.

(** *** Decimal numerals *)

Lemma pretty_N_char_plain (d : N) :
  (d < 10)%N →
  CommandManager.lowerChar (pretty_N_char d) = pretty_N_char d
  ∧ Parse.isSpace (pretty_N_char d) = false.
Proof.
  intros Hd.
  assert (d = 0 ∨ d = 1 ∨ d = 2 ∨ d = 3 ∨ d = 4 ∨ d = 5 ∨ d = 6 ∨ d = 7
          ∨ d = 8 ∨ d = 9)%N as Hcases by lia.
  destruct_or!; subst d; by vm_compute.
Qed.

Lemma go_app (x : N) : ∀ s t,
  pretty_N_go x s +:+ t = pretty_N_go x (s +:+ t).
Proof.
  induction (N.lt_wf_0 x) as [x _ IH]; intros s t.
  destruct (decide (x = 0)%N) as [-> | Hx]; [by rewrite !pretty_N_go_0|].
  rewrite (pretty_N_go_step x s), (pretty_N_go_step x (s +:+ t)) by lia.
  rewrite IH by (apply N.div_lt; lia). done.
Qed.

Lemma go_lower (x : N) : ∀ s,
  CommandManager.toLowerCase (pretty_N_go x s)
  = pretty_N_go x (CommandManager.toLowerCase s).
Proof.
  induction (N.lt_wf_0 x) as [x _ IH]; intros s.
  destruct (decide (x = 0)%N) as [-> | Hx]; [by rewrite !pretty_N_go_0|].
  rewrite (pretty_N_go_step x s),
    (pretty_N_go_step x (CommandManager.toLowerCase s)) by lia.
  rewrite IH by (apply N.div_lt; lia). simpl.
  destruct (pretty_N_char_plain (x `mod` 10)) as [-> _];
    [by apply N.mod_lt|done].
Qed.

Lemma go_spaces (x : N) : ∀ s,
  removeSpaces (pretty_N_go x s) = pretty_N_go x (removeSpaces s).
Proof.
  induction (N.lt_wf_0 x) as [x _ IH]; intros s.
  destruct (decide (x = 0)%N) as [-> | Hx]; [by rewrite !pretty_N_go_0|].
  rewrite (pretty_N_go_step x s),
    (pretty_N_go_step x (removeSpaces s)) by lia.
  rewrite IH by (apply N.div_lt; lia). simpl.
  destruct (pretty_N_char_plain (x `mod` 10)) as [_ ->];
    [by apply N.mod_lt|done].
Qed.

Lemma go_span (x : N) : ∀ s,
  spanDigits (pretty_N_go x s)
  = (pretty_N_go x (fst (spanDigits s)), snd (spanDigits s)).
Proof.
  induction (N.lt_wf_0 x) as [x _ IH]; intros s.
  destruct (decide (x = 0)%N) as [-> | Hx].
  { rewrite !pretty_N_go_0. by destruct (spanDigits s). }
  rewrite (pretty_N_go_step x s),
    (pretty_N_go_step x (fst (spanDigits s))) by lia.
  rewrite IH by (apply N.div_lt; lia). simpl.
  destruct (pretty_N_char_digit (x `mod` 10)) as [-> _];
    [by apply N.mod_lt|].
  by destruct (spanDigits s).
Qed.

Lemma go_nonempty (x : N) (s : string) :
  (0 < x)%N → String.eqb (pretty_N_go x s) "" = false.
Proof.
  intros Hx. destruct (pretty_N_go_head x s Hx) as (c & rest & -> & _). done.
Qed.

Lemma go_parseInt (x : N) :
  (0 < x)%N → Parse.parseInt (pretty_N_go x "") = Some (Z.of_N x).
Proof.
  intros Hx. destruct (pretty_N_decimal x) as [Hp _].
  unfold pretty, pretty_N in Hp. by rewrite decide_False in Hp by lia.
Qed.

Lemma pretty_pos (x : N) : (0 < x)%N → pretty x = pretty_N_go x "".
Proof. intros Hx. unfold pretty, pretty_N. by rewrite decide_False by lia. Qed.

(** The text [parseSizeArgument] matches, for an argument that starts
    with a numeral. *)
Lemma text_of_numeral (x : N) (rest : string) :
  (0 < x)%N →
  removeSpaces (CommandManager.toLowerCase (pretty x +:+ rest))
  = pretty_N_go x (removeSpaces (CommandManager.toLowerCase rest))
  ∧ String.eqb (pretty x +:+ rest) "" = false.
Proof.
  intros Hx. rewrite (pretty_pos x Hx), go_app. simpl.
  by rewrite go_lower, go_spaces, go_nonempty.
Qed.

Lemma append_string_empty (s : string) : s +:+ "" = s.
Proof.
  induction s as [|c s IH]; simpl; [done|].
  apply (f_equal (String c)). exact IH.
Qed.

Lemma Qround_whole (q : Q) (n : Z) : (q == inject_Z n)%Q → Qround q = n.
Proof.
  intros Hq. unfold Qround. rewrite (Qfloor_comp _ (inject_Z n + (1 # 2))%Q)
    by (by rewrite Hq).
  apply Z.le_antisymm.
  - assert (Qfloor (inject_Z n + (1 # 2)) < n + 1); [|lia].
    rewrite Zlt_Qlt. eapply Qle_lt_trans; [apply Qfloor_le|].
    rewrite inject_Z_plus. apply Qplus_lt_r. done.
  - rewrite <- (Qfloor_Z n) at 1. apply Qfloor_resp_le.
    rewrite <- (Qplus_0_r (inject_Z n)) at 1. apply Qplus_le_r. done.
Qed.

End SizeFacts.

(** For a well-formed still image, whatever [parseSizeArgument] returns
    for a size argument of at most 15 characters (so that the numbers
    it writes are below 2^53, where [parseInt] is exact) is a pair of
    whole numbers, each at least 1: a build is never started on an
    empty or negative grid. *)
Theorem parseSizeArgument_sizes_are_positive (image : NdArray)
    (pw ph pc : Z) (dimensions : Size.Dimensions) (sizeArg : option string)
    (w h : option Z) :
  Packed image pw ph pc →
  Size.getImageDimensions image = Some dimensions →
  (∀ arg, sizeArg = Some arg → (String.length arg <= 15)%nat) →
  Size.parseSizeArgument sizeArg dimensions = inr (w, h) →
  Size.frames dimensions = 1
  ∧ ∃ wz hz, w = Some wz ∧ h = Some hz ∧ 1 <= wz ∧ 1 <= hz.
Proof.
  intros Hpacked Hdim _ Hsize.
  pose proof (packed_size _ _ _ _ Hpacked) as (Hw & Hh & _).
  unfold Size.getImageDimensions in Hdim.
  rewrite (packed_shape _ _ _ _ Hpacked) in Hdim.
  injection Hdim as <-. split; [done|].
  unfold Size.parseSizeArgument in Hsize. cbn [Size.width Size.height] in Hsize.
  assert (Hown : ∃ wz hz, Some pw = Some wz ∧ Some ph = Some hz
                          ∧ 1 <= wz ∧ 1 <= hz)
    by (exists pw, ph; split_and!; [done | done | lia | lia]).
  destruct sizeArg as [arg|]; [|by injection Hsize as <- <-].
  destruct (String.eqb arg ""); [by injection Hsize as <- <-|].
  destruct (Size.matchSize _) as [[g1 g2]|] eqn:Em; [|done].
  apply SizeFacts.matchSize_groups in Em as [[wz Hg1] Hg2].
  destruct (Size.notPositive (Parse.parseInt g1)) eqn:Hpos; [done|].
  pose proof (SizeFacts.notPositive_false _ _ Hg1 Hpos) as Hwz.
  assert (Hinfer : ∃ hz, Size.inferHeight (Some wz)
                           (Size.mkDimensions pw ph 1) = Some hz ∧ 1 <= hz).
  { unfold Size.inferHeight. cbn [Size.width Size.height].
    destruct (pw =? 0) eqn:E; [apply Z.eqb_eq in E; lia|].
    eexists. split; [done|]. lia. }
  rewrite Hg1 in Hsize.
  destruct g2 as [g2|].
  - destruct (negb (String.eqb g2 "")).
    + destruct (Hg2 g2 eq_refl) as [hz Hhz].
      destruct (Size.notPositive (Parse.parseInt g2)) eqn:Hpos2; [done|].
      pose proof (SizeFacts.notPositive_false _ _ Hhz Hpos2) as Hhz1.
      injection Hsize as <- <-. rewrite Hhz. by exists wz, hz.
    + injection Hsize as <- <-. destruct Hinfer as (hz & Hhz & ?).
      exists wz, hz. split_and!; [done | exact Hhz | done | done].
  - injection Hsize as <- <-. destruct Hinfer as (hz & Hhz & ?).
    exists wz, hz. split_and!; [done | exact Hhz | done | done].
Qed.

Lemma parseSizeArgument_sizes_are_positive_witness :
  Size.frames (Size.mkDimensions 2 2 1) = 1
  ∧ ∃ wz hz, Some 5 = Some wz ∧ Some 5 = Some hz ∧ 1 <= wz ∧ 1 <= hz.
Proof.
  apply (parseSizeArgument_sizes_are_positive Example.checker 2 2 4
           (Size.mkDimensions 2 2 1) (Some "5")).
  - constructor; try reflexivity. lia.
  - reflexivity.
  - intros arg [= <-]. simpl. lia.
  - reflexivity.
Defined.

(** A size written as two decimal numbers with an [x] between them,
    in either case and with white space anywhere, is read back as
    those two numbers, whatever the image, as long as a double holds
    them exactly (up to 2^53); a width or a height of 0 is refused. *)
Theorem parseSizeArgument_decimal (w h : N) (dimensions : Size.Dimensions) :
  (0 < w <= 2 ^ 53)%N → (0 < h <= 2 ^ 53)%N →
  Size.parseSizeArgument (Some (pretty w +:+ "x" +:+ pretty h)) dimensions
  = inr (Some (Z.of_N w), Some (Z.of_N h))
  ∧ Size.parseSizeArgument (Some (pretty w +:+ " X " +:+ pretty h)) dimensions
    = inr (Some (Z.of_N w), Some (Z.of_N h))
  ∧ Size.parseSizeArgument (Some ("0x" +:+ pretty h)) dimensions
    = inl Size.WidthNotPositive
  ∧ Size.parseSizeArgument (Some (pretty w +:+ "x0")) dimensions
    = inl Size.HeightNotPositive.
Proof.
  intros [Hw _] [Hh _].
  assert (Hspan : Size.spanDigits (pretty_N_go h "") = (pretty_N_go h "", ""))
    by (by rewrite SizeFacts.go_span).
  assert (Hwpos : (Z.of_N w <=? 0) = false) by (apply Z.leb_gt; lia).
  assert (Hhpos : (Z.of_N h <=? 0) = false) by (apply Z.leb_gt; lia).
  assert (Hgood : ∀ sep,
    Size.removeSpaces (CommandManager.toLowerCase (sep +:+ pretty h))
    = String "x" (pretty_N_go h "") →
    Size.parseSizeArgument (Some (pretty w +:+ sep +:+ pretty h)) dimensions
    = inr (Some (Z.of_N w), Some (Z.of_N h))).
  { intros sep Hsep. unfold Size.parseSizeArgument.
    destruct (SizeFacts.text_of_numeral w (sep +:+ pretty h) Hw) as [-> ->].
    rewrite Hsep. unfold Size.matchSize.
    rewrite SizeFacts.go_span. simpl.
    rewrite SizeFacts.go_nonempty by done.
    rewrite Hspan, SizeFacts.go_nonempty by done. simpl.
    rewrite !SizeFacts.go_parseInt by done. simpl.
    by rewrite Hwpos, Hhpos, SizeFacts.go_nonempty by done. }
  split_and!.
  - apply Hgood. rewrite (SizeFacts.pretty_pos h Hh).
    change ("x" +:+ pretty_N_go h "") with (String "x" (pretty_N_go h "")).
    simpl. by rewrite SizeFacts.go_lower, SizeFacts.go_spaces.
  - apply Hgood. rewrite (SizeFacts.pretty_pos h Hh).
    change (" X " +:+ pretty_N_go h "")
      with (String " " (String "X" (String " " (pretty_N_go h "")))).
    simpl. by rewrite SizeFacts.go_lower, SizeFacts.go_spaces.
  - unfold Size.parseSizeArgument. rewrite (SizeFacts.pretty_pos h Hh).
    change ("0x" +:+ pretty_N_go h "")
      with (String "0" (String "x" (pretty_N_go h ""))).
    simpl. rewrite SizeFacts.go_lower, SizeFacts.go_spaces. simpl.
    unfold Size.matchSize. simpl. rewrite Hspan.
    by rewrite SizeFacts.go_nonempty by done.
  - unfold Size.parseSizeArgument.
    destruct (SizeFacts.text_of_numeral w "x0" Hw) as [-> ->].
    simpl. unfold Size.matchSize. rewrite SizeFacts.go_span. simpl.
    rewrite SizeFacts.go_nonempty by done.
    rewrite SizeFacts.go_parseInt by done. simpl. by rewrite Hwpos.
Qed.

Lemma parseSizeArgument_decimal_witness :
  Size.parseSizeArgument (Some (pretty 32%N +:+ "x" +:+ pretty 18%N))
    (Size.mkDimensions 640 360 1)
  = inr (Some (Z.of_N 32), Some (Z.of_N 18))
  ∧ Size.parseSizeArgument (Some (pretty 32%N +:+ " X " +:+ pretty 18%N))
      (Size.mkDimensions 640 360 1)
    = inr (Some (Z.of_N 32), Some (Z.of_N 18))
  ∧ Size.parseSizeArgument (Some ("0x" +:+ pretty 18%N))
      (Size.mkDimensions 640 360 1)
    = inl Size.WidthNotPositive
  ∧ Size.parseSizeArgument (Some (pretty 32%N +:+ "x0"))
      (Size.mkDimensions 640 360 1)
    = inl Size.HeightNotPositive.
Proof.
  apply (parseSizeArgument_decimal 32 18 (Size.mkDimensions 640 360 1)).
  - split; [reflexivity | vm_compute; discriminate].
  - split; [reflexivity | vm_compute; discriminate].
Defined.

(** A width alone keeps the proportions of the image when it is a
    whole multiple of the image's width: [k] times the width gives [k]
    times the height, and the image's own width gives its own size.
    The two products are numbers a double holds exactly (up to 2^53),
    so that [parseInt], the division and the product are exact. *)
Theorem parseSizeArgument_whole_multiple (k : N)
    (dimensions : Size.Dimensions) :
  (0 < k)%N →
  0 < Size.width dimensions →
  0 < Size.height dimensions →
  Z.of_N k * Size.width dimensions <= 2 ^ 53 →
  Z.of_N k * Size.height dimensions <= 2 ^ 53 →
  Size.parseSizeArgument
    (Some (pretty (k * Z.to_N (Size.width dimensions))%N)) dimensions
  = inr (Some (Z.of_N k * Size.width dimensions),
         Some (Z.of_N k * Size.height dimensions)).
Proof.
  intros Hk Hw Hh _ _.
  set (n := (k * Z.to_N (Size.width dimensions))%N).
  assert (Hn : (0 < n)%N) by (unfold n; lia).
  assert (Hnz : Z.of_N n = Z.of_N k * Size.width dimensions)
    by (unfold n; lia).
  unfold Size.parseSizeArgument.
  rewrite <- (SizeFacts.append_string_empty (pretty n)).
  destruct (SizeFacts.text_of_numeral n "" Hn) as [-> ->].
  simpl. unfold Size.matchSize. rewrite SizeFacts.go_span. simpl.
  rewrite SizeFacts.go_nonempty by done.
  rewrite SizeFacts.go_parseInt by done. simpl.
  assert (Hpos : (Z.of_N n <=? 0) = false) by (apply Z.leb_gt; lia).
  rewrite Hpos. unfold Size.inferHeight.
  destruct (Size.width dimensions =? 0) eqn:E; [apply Z.eqb_eq in E; lia|].
  rewrite Hnz. do 3 f_equal.
  rewrite (SizeFacts.Qround_whole _ (Z.of_N k * Size.height dimensions)).
  - lia.
  - rewrite !inject_Z_mult. field.
    intros Hzero. unfold Qeq in Hzero. simpl in Hzero. lia.
Qed.

Lemma parseSizeArgument_whole_multiple_witness :
  Size.parseSizeArgument
    (Some (pretty (3 * Z.to_N (Size.width (Size.mkDimensions 16 9 1)))%N))
    (Size.mkDimensions 16 9 1)
  = inr (Some (Z.of_N 3 * Size.width (Size.mkDimensions 16 9 1)),
         Some (Z.of_N 3 * Size.height (Size.mkDimensions 16 9 1))).
Proof.
  apply (parseSizeArgument_whole_multiple 3 (Size.mkDimensions 16 9 1)).
  - reflexivity.
  - reflexivity.
  - reflexivity.
  - vm_compute. discriminate.
  - vm_compute. discriminate.
Defined.
